(** * tbr_api: a book recommendation service over a CSV table

    A shallow embedding of [app.py]: the loader [load_books], the two
    selectors [pick_random] and [pick_by_mood], and the three Flask views
    [health], [random_book] and [mood_book].

    Modelling choices.
    - A Python [str] is the Rocq string of its UTF-8 bytes, so that equal
      strings are equal texts and ASCII text reads as it is written.
    - What the code calls in Python, pandas and Flask and does not define
      is the interface [Runtime]: [str.lower], [str.strip],
      [Series.str.lower], what [astype(str)] makes of a missing value, and
      what the JSON encoder makes of a number.  Every statement about the code is proved for
      every runtime.  The examples run on one instance, [runtime], whose
      [str.strip] is complete and whose [str.lower] covers ASCII, Latin-1
      and unaccented Greek.
    - A pandas [DataFrame] is an object in a store: a list of column labels
      and a list of rows of cells, reached through a reference.
      [read_csv], [df[mask]] and [df.sample] create objects, and
      [df.columns = ...] writes one in place.  Column labels may repeat,
      as pandas allows: [read_csv] gives distinct names, and [load_books]
      can make two of them equal when it strips and lower-cases them.
    - A cell is a Python [str], an integer, a float given by its [repr], a
      boolean, or the missing value [nan].
    - Python exceptions are the [Raise] outcomes of the [Result] type.
    - The process state is a [World]: the store, the module-level
      [BOOKS_DF], the state of the random generator used by
      [DataFrame.sample], and a log of the selector calls made so far. *)

From Stdlib Require Import Ascii String NArith ZArith List Bool Lia.
From stdpp Require Import base option list strings gmap pretty.

Local Open Scope string_scope.

(** ** Python text, for the examples *)

Module Text.

Definition code (a : ascii) : N := N_of_ascii a.

Definition chr (n : N) : ascii := ascii_of_N n.

Definition between (lo n hi : N) : bool := (lo <=? n)%N && (n <=? hi)%N.

(** the code points of a text, from its UTF-8 bytes *)
Fixpoint decode (s : string) : list N :=
  match s with
  | EmptyString => []
  | String a s1 =>
      let b0 := code a in
      if (b0 <? 128)%N then b0 :: decode s1
      else
        match s1 with
        | EmptyString => [b0]
        | String b s2 =>
            let b1 := (code b - 128)%N in
            if (b0 <? 224)%N then ((b0 - 192) * 64 + b1)%N :: decode s2
            else
              match s2 with
              | EmptyString => [b0; code b]
              | String c s3 =>
                  let b2 := (code c - 128)%N in
                  if (b0 <? 240)%N
                  then ((b0 - 224) * 4096 + b1 * 64 + b2)%N :: decode s3
                  else
                    match s3 with
                    | EmptyString => [b0; code b; code c]
                    | String d s4 =>
                        ((b0 - 240) * 262144 + b1 * 4096 + b2 * 64
                         + (code d - 128))%N :: decode s4
                    end
              end
        end
  end.

Definition encode_point (n : N) : string :=
  if (n <? 128)%N then String (chr n) EmptyString
  else if (n <? 2048)%N
  then String (chr (192 + n / 64))
         (String (chr (128 + n mod 64)) EmptyString)
  else if (n <? 65536)%N
  then String (chr (224 + n / 4096))
         (String (chr (128 + (n / 64) mod 64))
            (String (chr (128 + n mod 64)) EmptyString))
  else String (chr (240 + n / 262144))
         (String (chr (128 + (n / 4096) mod 64))
            (String (chr (128 + (n / 64) mod 64))
               (String (chr (128 + n mod 64)) EmptyString))).

Fixpoint encode (l : list N) : string :=
  match l with
  | [] => EmptyString
  | n :: l' => encode_point n +:+ encode l'
  end.

(** [str.isspace] of one character: the white space of Unicode, which is
    the control characters 9-13 and 28-31, the space, U+0085, U+00A0,
    U+1680, U+2000-U+200A, U+2028, U+2029, U+202F, U+205F and U+3000. *)
Definition is_space (n : N) : bool :=
  between 9 n 13 || between 28 n 32
  || (n =? 133)%N || (n =? 160)%N || (n =? 5760)%N
  || between 8192 n 8202
  || (n =? 8232)%N || (n =? 8233)%N || (n =? 8239)%N || (n =? 8287)%N
  || (n =? 12288)%N.

Fixpoint lstrip (l : list N) : list N :=
  match l with
  | [] => []
  | n :: l' => if is_space n then lstrip l' else l
  end.

Definition rstrip (l : list N) : list N := rev (lstrip (rev l)).

(** [s.strip()] *)
Definition strip (s : string) : string := encode (rstrip (lstrip (decode s))).

(** The letters this excerpt knows: ASCII, Latin-1 and unaccented Greek. *)
Definition is_upper (n : N) : bool :=
  between 65 n 90
  || (between 192 n 222 && negb (n =? 215)%N)
  || between 913 n 929 || between 931 n 937.

Definition is_cased (n : N) : bool :=
  is_upper n || between 97 n 122
  || (between 223 n 255 && negb (n =? 247)%N)
  || between 945 n 969.

(** the lower-case form of one character: in these three ranges every
    capital is 32 below its small letter *)
Definition lower_point (n : N) : N := if is_upper n then (n + 32)%N else n.

Definition next_cased (l : list N) : bool :=
  match l with
  | [] => false
  | n :: _ => is_cased n
  end.

(** Character by character, but for the capital sigma U+03A3, which
    becomes the final sigma U+03C2 at the end of a word: after a cased
    letter and not before one.  (Python looks past apostrophes, accents
    and other marks that stand in between; the excerpt has none.) *)
Fixpoint lower_points (after_cased : bool) (l : list N) : list N :=
  match l with
  | [] => []
  | n :: l' =>
      (if (n =? 931)%N && after_cased && negb (next_cased l')
       then 962%N else lower_point n)
      :: lower_points (is_cased n) l'
  end.

(** [s.lower()] *)
Definition lower (s : string) : string := encode (lower_points false (decode s)).

(** [s.casefold()]: the form under which texts that differ in letter case
    only are equal.  Both small sigmas fold to U+03C3, the micro sign to
    the small mu and the sharp s to [ss]. *)
Definition casefold_point (n : N) : list N :=
  if (n =? 962)%N then [963%N]
  else if (n =? 181)%N then [956%N]
  else if (n =? 223)%N then [115%N; 115%N]
  else [lower_point n].

Definition casefold (s : string) : string :=
  encode (flat_map casefold_point (decode s)).

(** [needle in hay], used only to tell equality from substring matching *)
Fixpoint prefix_of (p s : string) : bool :=
  match p, s with
  | EmptyString, _ => true
  | String a p', String b s' => bool_decide (a = b) && prefix_of p' s'
  | _, _ => false
  end.

Fixpoint contains (hay needle : string) : bool :=
  prefix_of needle hay
  || match hay with
     | EmptyString => false
     | String _ hay' => contains hay' needle
     end.

End Text.

(** ** Exceptions and results *)

Inductive value_error :=
  | CsvMissingColumns (missing : gset string)
      (* ValueError(f"CSV missing columns: {missing}") of load_books *)
  | EmptyPopulation
      (* DataFrame.sample(1) on a frame without rows *)
  | LengthMismatch.
      (* df.columns = names, with another number of names *)

Inductive exn :=
  | ReadCsvError                 (* read_csv: unreadable or unparsable file *)
  | KeyError (key : string)      (* a label that no column or entry carries *)
  | AttributeError (attr : string)
  | IndexError
  | TypeError                    (* a value the JSON encoder refuses *)
  | ValueError (v : value_error)
  | Dangling.                    (* no Python exception: a reference to no
                                    object, which no Python program holds *)

Inductive Result (A : Type) :=
  | Ok (a : A)
  | Raise (e : exn).
Arguments Ok {A} a.
Arguments Raise {A} e.

Definition rbind {A B} (r : Result A) (k : A -> Result B) : Result B :=
  match r with
  | Ok a => k a
  | Raise e => Raise e
  end.

(** ** Cells, series and frames *)

Inductive cell :=
  | CStr (s : string)
  | CInt (z : Z)
  | CFloat (repr : string)   (* a float other than nan, by its repr *)
  | CBool (b : bool)
  | CNaN.

Global Instance cell_eq_dec : EqDecision cell.
Proof. solve_decision. Defined.

(** A labelled row, as [DataFrame.iloc[0]] returns it: the index is the
    frame's column labels. *)
Abbreviation Series := (list (string * cell)).

Record DataFrame := {
  columns : list string;
  rows : list (list cell)
}.

(** ** The runtime under the code *)

(** What the code calls and does not define.  [json_number book c] is what
    the JSON encoder of Flask writes for the number or boolean [c] read
    from [book], or [None] when it raises [TypeError].  The verdict goes by
    the Python type of the value, which [iloc[0]] decides when it gives
    the row one dtype, from the dtypes of the columns of the table; the
    table of a process is loaded once, so that there it is a function of
    the book and the cell. *)
Class Runtime := {
  str_lower : string -> string;          (* s.lower() *)
  series_str_lower : string -> string;   (* one element under Series.str.lower():
                                            Python's lower() on a column of
                                            objects, the Arrow kernel on a
                                            column that Arrow backs *)
  str_strip : string -> string;          (* s.strip() *)
  nan_text : option string;              (* astype(str) of a missing value:
                                            the text nan up to pandas 2,
                                            still missing from pandas 3 on *)
  json_number : Series -> cell -> option cell
}.

Module Json.

Definition is_float (c : cell) : bool :=
  match c with CFloat _ | CNaN => true | _ => false end.

(** an integer that no 64-bit column holds: [read_csv] keeps it as a
    Python [int] in a column of objects *)
Definition is_wide (z : Z) : bool := (z <? - 2 ^ 63)%Z || (2 ^ 64 <=? z)%Z.

(** a cell whose column makes the row a row of objects *)
Definition is_object (c : cell) : bool :=
  match c with
  | CStr _ | CBool _ => true
  | CInt z => is_wide z
  | _ => false
  end.

(** the row is read back as floats: numbers only, one of them a float *)
Definition float_row (book : Series) : bool :=
  negb (existsb (fun p => is_object p.2) book)
  && existsb (fun p => is_float p.2) book.

(** The encoder writes a Python [float] and a Python [int]; a
    [numpy.int64] and a [numpy.bool_] are neither [int] nor [bool] and are
    refused.  In a row of floats an integer is its float, written here
    with [.0], which is its [repr] up to 2^53. *)
Definition number (book : Series) (c : cell) : option cell :=
  match c with
  | CFloat t => Some (CFloat t)
  | CInt z =>
      if is_wide z then Some (CInt z)
      else if float_row book then Some (CFloat (pretty z +:+ ".0"))
      else None
  | _ => None
  end.

End Json.

(** The runtime of the examples: Python 3 with pandas 3, the strings of a
    column held as Python objects.  It takes the dtype of a row from the
    cells of the row, as pandas does for a table whose columns hold what
    these cells show. *)
Definition runtime : Runtime :=
  {| str_lower := Text.lower;
     series_str_lower := Text.lower;
     str_strip := Text.strip;
     nan_text := None;
     json_number := Json.number |}.

(** ** Sample data *)

Definition book_fields : list string :=
  ["title"; "author"; "genre"; "mood_tag"; "energy"; "notes"].

Definition dune : list cell :=
  [CStr "Dune"; CStr "Herbert"; CStr "SciFi"; CStr "Epic"; CStr "High";
   CStr "Classic"].

Definition emma : list cell :=
  [CStr "Emma"; CStr "Austen"; CStr "Romance"; CStr "Happy"; CStr "Low"; CNaN].

Definition ulysses : list cell :=
  [CStr "Ulysses"; CStr "Joyce"; CStr "Novel"; CNaN; CStr "Low"; CNaN].

Definition odos : list cell :=
  [CStr "Odos"; CStr "Anon"; CStr "Guide"; CStr "οδοσ"; CStr "Low"; CNaN].

Definition epic : list cell :=
  [CStr "Iliade"; CStr "Homère"; CStr "Poem"; CStr "ÉPIC"; CStr "High"; CNaN].

(** the table of scenario 1 *)
Definition dune_table : DataFrame :=
  {| columns := book_fields; rows := [dune] |}.

Definition two_books : DataFrame :=
  {| columns := book_fields; rows := [dune; emma] |}.

Definition no_books : DataFrame :=
  {| columns := book_fields; rows := [] |}.

(** a table whose only row has no mood *)
Definition untagged : DataFrame :=
  {| columns := book_fields; rows := [ulysses] |}.

(** a table with moods outside ASCII *)
Definition greek_table : DataFrame :=
  {| columns := book_fields; rows := [odos; epic] |}.

(** the no-break space U+00A0 *)
Definition nbsp : string := Text.encode [160%N].

(** a file whose header spells the names with other case and spacing, the
    first one after a no-break space *)
Definition spaced_file : DataFrame :=
  {| columns := [nbsp +:+ "Title "; "AUTHOR"; "Genre"; "mood_tag "; "Energy";
                 "notes"];
     rows := [dune] |}.

(** a file without the [genre] column *)
Definition no_genre_file : DataFrame :=
  {| columns := ["title"; "author"; "mood_tag"; "energy"; "notes"];
     rows := [[CStr "Dune"; CStr "Herbert"; CStr "Epic"; CStr "High";
               CStr "Classic"]] |}.

(** a file with two mood columns, [mood_tag] and [Mood_Tag]: the header
    has no repeated name, and both columns are labelled [mood_tag] once
    the names are normalized *)
Definition twin_file : DataFrame :=
  {| columns := ["title"; "author"; "genre"; "mood_tag"; "Mood_Tag"; "energy";
                 "notes"];
     rows := [[CStr "Dune"; CStr "Herbert"; CStr "SciFi"; CStr "Epic";
               CStr "Epic"; CStr "High"; CStr "Classic"]] |}.

Definition twin_table : DataFrame :=
  {| columns := ["title"; "author"; "genre"; "mood_tag"; "mood_tag"; "energy";
                 "notes"];
     rows := rows twin_file |}.

(** a table of text whose [energy] column holds integers *)
Definition graded_table : DataFrame :=
  {| columns := book_fields;
     rows := [[CStr "Dune"; CStr "Herbert"; CStr "SciFi"; CStr "Epic"; CInt 5;
               CStr "Classic"]] |}.

(** a table of text whose [energy] column holds floats *)
Definition rated_table : DataFrame :=
  {| columns := book_fields;
     rows := [[CStr "Dune"; CStr "Herbert"; CStr "SciFi"; CStr "Epic";
               CFloat "4.5"; CStr "Classic"]] |}.

(** a table of numbers, one column of which holds floats *)
Definition numbers_table : DataFrame :=
  {| columns := book_fields;
     rows := [[CInt 1; CInt 2; CInt 3; CInt 4; CFloat "4.5"; CInt 6]] |}.

(** The file system as [read_csv] sees it: what reading a path gives. *)
Definition Files := string -> Result DataFrame.

Definition CSV_PATH : string := "books.csv".

(** the file system that holds [d] at [CSV_PATH] and nothing else *)
Definition disk (d : DataFrame) : Files :=
  fun path => if decide (path = CSV_PATH) then Ok d else Raise ReadCsvError.

Definition no_disk : Files := fun _ => Raise ReadCsvError.

(** membership in a list that is written out *)
Ltac elem_here :=
  repeat first [apply list_elem_of_here | apply list_elem_of_further].

Section App.

Context {rt : Runtime}.

(** ** pandas, on the content of a frame *)

(** [str(v)] as [Series.astype(str)] applies it to a cell; [None] is a
    value that stays missing. *)
Definition astype_str (c : cell) : option string :=
  match c with
  | CStr s => Some s
  | CInt z => Some (pretty z)
  | CFloat t => Some t
  | CBool b => Some (if b then "True" else "False")
  | CNaN => nan_text
  end.

(** The frame is rectangular: a position that a row does not fill holds
    [nan], which is how [read_csv] pads a short line. *)
Definition cell_at (r : list cell) (i : nat) : cell := default CNaN (r !! i).

(** positions of the columns labelled [key], counted from [i] *)
Fixpoint get_indexer (key : string) (cols : list string) (i : nat) : list nat :=
  match cols with
  | [] => []
  | c :: cs =>
      if decide (c = key) then i :: get_indexer key cs (S i)
      else get_indexer key cs (S i)
  end.

(** What [df[key]] evaluates to: a column when the label is unique, a frame
    of all the columns that carry the label when it repeats. *)
Inductive Selection :=
  | SelColumn (cs : list cell)
  | SelFrame (sub : DataFrame).

(** [df[key]] *)
Definition getitem (d : DataFrame) (key : string) : Result Selection :=
  match get_indexer key (columns d) 0 with
  | [] => Raise (KeyError key)
  | [i] => Ok (SelColumn (map (fun r => cell_at r i) (rows d)))
  | locs =>
      Ok (SelFrame {| columns := map (fun _ => key) locs;
                      rows := map (fun r => map (cell_at r) locs) (rows d) |})
  end.

(** one cell under [.astype(str)]: its text, or still missing *)
Definition cell_astype_str (c : cell) : cell :=
  match astype_str c with
  | Some s => CStr s
  | None => CNaN
  end.

(** [.astype(str)], defined on a column and on a frame alike *)
Definition sel_astype_str (sel : Selection) : Selection :=
  match sel with
  | SelColumn cs => SelColumn (map cell_astype_str cs)
  | SelFrame sub =>
      SelFrame {| columns := columns sub;
                  rows := map (map cell_astype_str) (rows sub) |}
  end.

(** [.str.lower()]: only a column has the [str] accessor; a missing value
    stays missing *)
Definition sel_str_lower (sel : Selection) : Result (list (option string)) :=
  match sel with
  | SelColumn cs => Ok (map (fun c => series_str_lower <$> astype_str c) cs)
  | SelFrame _ => Raise (AttributeError "str")
  end.

(** [col == s], elementwise; a missing value equals nothing *)
Definition eq_mask (col : list (option string)) (s : string) : list bool :=
  map (fun x => match x with
                | Some y => bool_decide (y = s)
                | None => false
                end) col.

(** [df[mask]]: the rows at which the mask is true, in order *)
Fixpoint select_rows (rs : list (list cell)) (mask : list bool) : list (list cell) :=
  match rs, mask with
  | r :: rs', b :: mask' =>
      if b then r :: select_rows rs' mask' else select_rows rs' mask'
  | _, _ => []
  end.

Definition boolean_index (d : DataFrame) (mask : list bool) : DataFrame :=
  {| columns := columns d; rows := select_rows (rows d) mask |}.

(** [df.empty]: some axis has length zero *)
Definition empty (d : DataFrame) : bool :=
  bool_decide (columns d = []) || bool_decide (rows d = []).

(** the row [cells] of a frame with labels [cols], as a series *)
Definition row_series (cols : list string) (cells : list cell) : Series :=
  imap (fun i c => (c, cell_at cells i)) cols.

(** the first row of a frame, as [iloc[0]] gives it *)
Definition first_row (d : DataFrame) : Result Series :=
  match rows d with
  | [] => Raise IndexError
  | r :: _ => Ok (row_series (columns d) r)
  end.

(** A Python value that a view hands to [jsonify]: a [str] of the code, a
    value read from a book under a label that is unique in its index, or
    the series of all the values under a label that repeats. *)
Inductive pyval :=
  | Str (s : string)
  | Item (book : Series) (c : cell)
  | Items (cs : list cell).

(** [book[key]] *)
Definition series_getitem (book : Series) (key : string) : Result pyval :=
  match filter (fun p => p.1 = key) book with
  | [] => Raise (KeyError key)
  | [p] => Ok (Item book p.2)
  | ps => Ok (Items (map snd ps))
  end.

(** ** The process state *)

Inductive call := CallPickRandom | CallPickByMood.

Record World := {
  objs : list DataFrame;     (* the frame objects, by reference *)
  BOOKS_DF : nat;            (* the module-level name: a reference *)
  entropy : nat -> nat;      (* the draws the random generator will give *)
  drawn : nat;               (* how many draws were taken *)
  calls : list call          (* selector calls so far, latest first *)
}.

(** A computation reads and writes the world and may raise. *)
Definition M (A : Type) : Type := World -> Result A * World.

Definition ret {A} (a : A) : M A := fun w => (Ok a, w).

Definition raise {A} (e : exn) : M A := fun w => (Raise e, w).

Definition bind {A B} (m : M A) (k : A -> M B) : M B :=
  fun w =>
    match m w with
    | (Ok a, w') => k a w'
    | (Raise e, w') => (Raise e, w')
    end.

Definition lift {A} (r : Result A) : M A := fun w => (r, w).

Notation "'do' x <- m ; k" := (bind m (fun x => k))
  (at level 10, x name, m at level 100, k at level 200).

Definition set_objs (l : list DataFrame) (w : World) : World :=
  {| objs := l; BOOKS_DF := BOOKS_DF w; entropy := entropy w;
     drawn := drawn w; calls := calls w |}.

(** a new frame object; its reference is returned *)
Definition new_frame (d : DataFrame) : M nat :=
  fun w => (Ok (length (objs w)), set_objs (objs w ++ [d]) w).

(** the content of a frame object *)
Definition get_frame (df : nat) : M DataFrame :=
  fun w =>
    match objs w !! df with
    | Some d => (Ok d, w)
    | None => (Raise Dangling, w)
    end.

(** [df.columns = names]: the object is written in place *)
Definition set_columns (df : nat) (names : list string) : M unit :=
  fun w =>
    match objs w !! df with
    | Some d =>
        if decide (length names = length (columns d))
        then (Ok tt, set_objs (<[df := {| columns := names; rows := rows d |}]>
                                 (objs w)) w)
        else (Raise (ValueError LengthMismatch), w)
    | None => (Raise Dangling, w)
    end.

Definition read_BOOKS_DF : M nat := fun w => (Ok (BOOKS_DF w), w).

Definition log_call (c : call) : M unit :=
  fun w => (Ok tt, {| objs := objs w; BOOKS_DF := BOOKS_DF w;
                      entropy := entropy w; drawn := drawn w;
                      calls := c :: calls w |}).

(** one draw of the generator, reduced to an index below [n] *)
Definition draw_below (n : nat) : M nat :=
  fun w => (Ok (entropy w (drawn w) mod n),
            {| objs := objs w; BOOKS_DF := BOOKS_DF w; entropy := entropy w;
               drawn := S (drawn w); calls := calls w |}).

(** [df.empty] *)
Definition frame_empty (df : nat) : M bool :=
  do d <- get_frame df;
  ret (empty d).

(** [df.sample(1)]: a new frame of one row drawn among the rows of [df] *)
Definition sample1 (df : nat) : M nat :=
  do d <- get_frame df;
  match rows d with
  | [] => raise (ValueError EmptyPopulation)
  | r0 :: _ =>
      do i <- draw_below (length (rows d));
      new_frame {| columns := columns d;
                   rows := [default r0 (rows d !! i)] |}
  end.

(** [df.iloc[0]] *)
Definition iloc0 (df : nat) : M Series :=
  do d <- get_frame df;
  lift (first_row d).

(** ** The JSON responses *)

(** A JSON object, and a response as a view returns it: [jsonify(...)]
    alone stands for the pair with status 200. *)
Record Response := {
  body : gmap string cell;
  status : nat
}.

(** what the encoder writes for a cell read from [book]: a [str] and the
    float [nan] as they are, a number as the runtime says *)
Definition json_cell (book : Series) (c : cell) : Result cell :=
  match c with
  | CStr s => Ok (CStr s)
  | CNaN => Ok CNaN
  | _ =>
      match json_number book c with
      | Some v => Ok v
      | None => Raise TypeError
      end
  end.

(** a series is no scalar: the encoder refuses it *)
Definition json_value (v : pyval) : Result cell :=
  match v with
  | Str s => Ok (CStr s)
  | Item book c => json_cell book c
  | Items _ => Raise TypeError
  end.

Fixpoint json_items (d : list (string * pyval)) : Result (list (string * cell)) :=
  match d with
  | [] => Ok []
  | (k, v) :: d' =>
      rbind (json_value v) (fun c =>
      rbind (json_items d') (fun items => Ok ((k, c) :: items)))
  end.

(** [jsonify(d)] for a dict [d], given in the order it is written *)
Definition jsonify (d : list (string * pyval)) : Result (gmap string cell) :=
  rbind (json_items d) (fun items => Ok (list_to_map items)).

Definition respond (d : list (string * pyval)) (code : nat) : M Response :=
  do b <- lift (jsonify d);
  ret {| body := b; status := code |}.

(** ** app.py *)

Definition required_cols : gset string :=
  {[ "title"; "author"; "genre"; "mood_tag"; "energy"; "notes" ]}.

(** [pd.read_csv(path)]: a new frame object, or the exception of the read *)
Definition read_csv (fs : Files) (path : string) : M nat :=
  match fs path with
  | Ok d => new_frame d
  | Raise e => raise e
  end.

Definition load_books (fs : Files) : M nat :=
  do df <- read_csv fs CSV_PATH;
  (* normalize column names *)
  do d <- get_frame df;
  do _ <- set_columns df (map (fun c => str_lower (str_strip c)) (columns d));
  do d <- get_frame df;
  let missing := required_cols ∖ list_to_set (columns d) in
  if decide (missing = ∅) then ret df
  else raise (ValueError (CsvMissingColumns missing)).

Definition pick_random (df : nat) : M (option Series) :=
  do _ <- log_call CallPickRandom;
  do e <- frame_empty df;
  if e then ret None
  else
    do s <- sample1 df;
    do book <- iloc0 s;
    ret (Some book).

(** the content of the frame that the first statement of [pick_by_mood]
    builds: the rows whose mood tag, as lower-case text, is the lower-case
    tag *)
Definition mood_subset (d : DataFrame) (mood_tag : string) : Result DataFrame :=
  rbind (getitem d "mood_tag") (fun col =>
  rbind (sel_str_lower (sel_astype_str col)) (fun lowered =>
  Ok (boolean_index d (eq_mask lowered (str_lower mood_tag))))).

Definition pick_by_mood (df : nat) (mood_tag : string) : M (option Series) :=
  do _ <- log_call CallPickByMood;
  do d <- get_frame df;
  do sub <- lift (mood_subset d mood_tag);
  do subset <- new_frame sub;
  do e <- frame_empty subset;
  if e then ret None
  else
    do s <- sample1 subset;
    do book <- iloc0 s;
    ret (Some book).

Definition health : M Response :=
  respond [("status", Str "ok")] 200.

(** the dict that both views build from the chosen book *)
Definition book_dict (book : Series) : Result (list (string * pyval)) :=
  rbind (series_getitem book "title") (fun title =>
  rbind (series_getitem book "author") (fun author =>
  rbind (series_getitem book "genre") (fun genre =>
  rbind (series_getitem book "mood_tag") (fun mood =>
  rbind (series_getitem book "energy") (fun energy =>
  rbind (series_getitem book "notes") (fun notes =>
  Ok [("title", title); ("author", author); ("genre", genre);
      ("mood", mood); ("energy", energy); ("notes", notes)])))))).

Definition random_book : M Response :=
  do df <- read_BOOKS_DF;
  do book <- pick_random df;
  match book with
  | None => respond [("error", Str "no_books")] 404
  | Some book =>
      do d <- lift (book_dict book);
      respond d 200
  end.

(** [request.args.get(key)]: the first value given for the key *)
Fixpoint args_get (args : list (string * string)) (key : string) : option string :=
  match args with
  | [] => None
  | (k, v) :: args' => if decide (k = key) then Some v else args_get args' key
  end.

(** [if not mood] holds for [None] and for the empty string. *)
Definition mood_book (args : list (string * string)) : M Response :=
  match args_get args "tag" with
  | None => respond [("error", Str "missing_tag_param")] 400
  | Some mood =>
      if bool_decide (mood = EmptyString)
      then respond [("error", Str "missing_tag_param")] 400
      else
        do df <- read_BOOKS_DF;
        do book <- pick_by_mood df mood;
        match book with
        | None => respond [("error", Str "no_books_for_mood")] 404
        | Some book =>
            do d <- lift (book_dict book);
            respond d 200
        end
  end.

(** The GET requests that have a route. *)
Inductive Request :=
  | GetRoot
  | GetRandom
  | GetMood (args : list (string * string)).

Definition view (req : Request) : M Response :=
  match req with
  | GetRoot => health
  | GetRandom => random_book
  | GetMood args => mood_book args
  end.

(** Requests served one after the other.  An exception that escapes a view
    ends that request alone; its outcome is kept as the [Raise] value. *)
Fixpoint serve_all (reqs : list Request) (w : World) : list (Result Response) * World :=
  match reqs with
  | [] => ([], w)
  | req :: reqs' =>
      let (out, w') := view req w in
      let (outs, w'') := serve_all reqs' w' in
      (out :: outs, w'')
  end.

(** the process before the module body has run *)
Definition fresh (rand : nat -> nat) : World :=
  {| objs := []; BOOKS_DF := 0; entropy := rand; drawn := 0; calls := [] |}.

(** Importing the module: [BOOKS_DF = load_books()] runs before any route
    can be served, and an exception there ends the process. *)
Definition startup (fs : Files) (rand : nat -> nat) : Result World :=
  match load_books fs (fresh rand) with
  | (Ok df, w) =>
      Ok {| objs := objs w; BOOKS_DF := df; entropy := entropy w;
            drawn := drawn w; calls := calls w |}
  | (Raise e, _) => Raise e
  end.

Definition run (fs : Files) (rand : nat -> nat) (reqs : list Request)
  : Result (list (Result Response)) :=
  rbind (startup fs rand) (fun w => Ok (serve_all reqs w).1).

(** ** Vocabulary of the statements *)

(** the column names as [load_books] rewrites them *)
Definition normalized (cols : list string) : list string :=
  map (fun c => str_lower (str_strip c)) cols.

(** The invariant of a loaded table: the six required names are among the
    column labels. *)
Definition Table (d : DataFrame) : Prop :=
  required_cols ⊆ list_to_set (columns d).

(** the label [key] is carried by exactly one column *)
Definition unique_label (key : string) (cols : list string) : Prop :=
  length (filter (fun c => c = key) cols) = 1.

(** each of the six fields is carried by exactly one column *)
Definition unique_fields (d : DataFrame) : Prop :=
  Forall (fun key => unique_label key (columns d)) book_fields.

(** how many columns carry the label *)
Definition label_count (key : string) (cols : list string) : nat :=
  length (filter (fun c => c = key) cols).

(** the cell of row [r] under the first column labelled [key] *)
Definition field (d : DataFrame) (r : list cell) (key : string) : cell :=
  match get_indexer key (columns d) 0 with
  | i :: _ => cell_at r i
  | [] => CNaN
  end.

(** the cell has a text, and lower-cased by [Series.str.lower] it is the
    tag lower-cased by [str.lower] *)
Definition mood_is (c : cell) (tag : string) : bool :=
  match astype_str c with
  | Some s => bool_decide (series_str_lower s = str_lower tag)
  | None => false
  end.

(** the row's mood tag, converted to text and lower-cased, equals the
    lower-cased tag: the case-insensitive comparison of the code *)
Definition matches_mood (d : DataFrame) (tag : string) (r : list cell) : Prop :=
  mood_is (field d r "mood_tag") tag = true.

Global Instance matches_mood_dec d tag r : Decision (matches_mood d tag r).
Proof. unfold matches_mood. apply _. Defined.

(** the candidate rows for a tag *)
Definition matching (d : DataFrame) (tag : string) : list (list cell) :=
  filter (matches_mood d tag) (rows d).

(** some row of the table has the mood *)
Definition some_match (d : DataFrame) (tag : string) : Prop :=
  exists r, r ∈ rows d /\ matches_mood d tag r.

(** the frame of the candidates, and a frame of one row *)
Definition subset_of (d : DataFrame) (tag : string) : DataFrame :=
  {| columns := columns d; rows := matching d tag |}.

Definition one_row (d : DataFrame) (r : list cell) : DataFrame :=
  {| columns := columns d; rows := [r] |}.

(** a cell that is a text or missing *)
Definition plain (c : cell) : Prop :=
  match c with
  | CStr _ | CNaN => True
  | _ => False
  end.

(** the six fields of the row are texts or missing *)
Definition plain_row (d : DataFrame) (r : list cell) : Prop :=
  Forall (fun key => plain (field d r key)) book_fields.

Definition plain_fields (d : DataFrame) : Prop :=
  Forall (plain_row d) (rows d).

(** the JSON encoder accepts the six fields of the row *)
Definition encodable_row (d : DataFrame) (r : list cell) : Prop :=
  Forall (fun key =>
            exists v, json_cell (row_series (columns d) r) (field d r key) = Ok v)
         book_fields.

(** the key of the response and the label it is read under *)
Definition book_items : list (string * string) :=
  [("title", "title"); ("author", "author"); ("genre", "genre");
   ("mood", "mood_tag"); ("energy", "energy"); ("notes", "notes")].

Definition book_keys : gset string :=
  {[ "title"; "author"; "genre"; "mood"; "energy"; "notes" ]}.

(** the body of a book response that holds the six fields of row [r] as
    they are stored, [mood] taken from the [mood_tag] field *)
Definition book_body (d : DataFrame) (r : list cell) : gmap string cell :=
  list_to_map
    [("title", field d r "title"); ("author", field d r "author");
     ("genre", field d r "genre"); ("mood", field d r "mood_tag");
     ("energy", field d r "energy"); ("notes", field d r "notes")].

(** the body holds, under each of the six keys, what the encoder writes
    for the field of row [r] *)
Definition renders (d : DataFrame) (r : list cell) (b : gmap string cell) : Prop :=
  dom b = book_keys
  /\ forall k label, (k, label) ∈ book_items ->
       exists v, json_cell (row_series (columns d) r) (field d r label) = Ok v
                 /\ b !! k = Some v.

Definition error_body (msg : string) : gmap string cell :=
  {[ "error" := CStr msg ]}.

Definition error_response (msg : string) (code : nat) : Response :=
  {| body := error_body msg; status := code |}.

(** the body of the health check *)
Definition ok_body : gmap string cell := {[ "status" := CStr "ok" ]}.

(** an outcome that is a response, not an exception *)
Definition answered (out : Result Response) : Prop :=
  exists resp, out = Ok resp.

(** what a view answers once its book is chosen *)
Definition book_response (book : Series) : Result Response :=
  rbind (book_dict book) (fun d =>
  rbind (jsonify d) (fun b => Ok {| body := b; status := 200 |})).

(** the table: the frame that [BOOKS_DF] refers to *)
Definition table (w : World) : option DataFrame := objs w !! BOOKS_DF w.

(** Nothing that existed was written: [BOOKS_DF] names the same object and
    every frame object of [w] is in [w'] with the same content; [w'] may
    hold new objects. *)
Definition preserved (w w' : World) : Prop :=
  BOOKS_DF w' = BOOKS_DF w /\ objs w `prefix_of` objs w'.

(** a computation keeps what exists when, from every world, it does *)
Definition keeps {A} (m : M A) : Prop := forall w, preserved w (m w).2.

(** a book that some run of [pick_by_mood] on the frame [d] returns *)
Definition can_return (d : DataFrame) (tag : string) (book : Series) : Prop :=
  exists w df, objs w !! df = Some d
               /\ (pick_by_mood df tag w).1 = Ok (Some book).

(** the world after a selector was entered, after a draw, and with new
    frame objects *)
Definition logged (c : call) (w : World) : World :=
  {| objs := objs w; BOOKS_DF := BOOKS_DF w; entropy := entropy w;
     drawn := drawn w; calls := c :: calls w |}.

Definition drew (w : World) : World :=
  {| objs := objs w; BOOKS_DF := BOOKS_DF w; entropy := entropy w;
     drawn := S (drawn w); calls := calls w |}.

Definition grown (ds : list DataFrame) (w : World) : World :=
  set_objs (objs w ++ ds) w.

(** the world [w] with a generator that always gives [i] *)
Definition with_draw (i : nat) (w : World) : World :=
  {| objs := objs w; BOOKS_DF := BOOKS_DF w; entropy := fun _ => i;
     drawn := drawn w; calls := calls w |}.

(** a world whose table is [d] and whose generator gives 0, 1, 2, ... *)
Definition world_of (d : DataFrame) : World :=
  {| objs := [d]; BOOKS_DF := 0; entropy := fun n => n; drawn := 0;
     calls := [] |}.

(** the row that a draw selects among [rs], [r0] being its first row *)
Definition chosen (r0 : list cell) (rs : list (list cell)) (w : World) : list cell :=
  default r0 (rs !! (entropy w (drawn w) mod length rs)).

(** *** The statements of C1, C5, C6 and C7, for one table in one world *)

(** The row's mood tag, as text, equals the tag up to letter case: the
    two are the same text once case is folded, which is how the claims
    word the comparison. *)
Definition folds_to (d : DataFrame) (tag : string) (r : list cell) : Prop :=
  exists s, astype_str (field d r "mood_tag") = Some s
            /\ Text.casefold s = Text.casefold tag.

Definition some_fold (d : DataFrame) (tag : string) : Prop :=
  exists r, r ∈ rows d /\ folds_to d tag r.

(** C1 as it is stated: [pick_by_mood] gives [None] exactly when no row
    has the mood up to letter case, and a row that has it otherwise. *)
Definition pick_by_mood_stated (d : DataFrame) (df : nat) (tag : string)
    (w : World) : Prop :=
  ((pick_by_mood df tag w).1 = Ok None <-> ~ some_fold d tag)
  /\ (some_fold d tag ->
      exists r, r ∈ rows d /\ folds_to d tag r
                /\ (pick_by_mood df tag w).1
                   = Ok (Some (row_series (columns d) r))).

(** C1 with the comparison of the code, on the lower-cased texts *)
Definition pick_by_mood_spec (d : DataFrame) (df : nat) (tag : string)
    (w : World) : Prop :=
  ((pick_by_mood df tag w).1 = Ok None <-> ~ some_match d tag)
  /\ (some_match d tag ->
      exists r, r ∈ rows d /\ matches_mood d tag r
                /\ (pick_by_mood df tag w).1
                   = Ok (Some (row_series (columns d) r))).



(** C7 as it is stated: two tags that are equal up to letter case have
    the same candidates in [d]. *)
Definition case_blind_stated (d : DataFrame) (tag1 tag2 : string) : Prop :=
  Text.casefold tag1 = Text.casefold tag2 ->
  mood_subset d tag1 = mood_subset d tag2.

(** ** Frames: labels, columns and rows *)

Lemma get_indexer_length key cols i :
  length (get_indexer key cols i) = length (filter (fun c => c = key) cols).
Proof.
  revert i. induction cols as [|c cs IH]; intros i; simpl; [reflexivity|].
  rewrite filter_cons. destruct (decide (c = key)); simpl; rewrite IH; reflexivity.
Qed.

Lemma get_indexer_nil key cols i :
  get_indexer key cols i = [] <-> key ∉ cols.
Proof.
  revert i. induction cols as [|c cs IH]; intros i; simpl.
  - split; [intros _; apply not_elem_of_nil | reflexivity].
  - rewrite not_elem_of_cons. destruct (decide (c = key)) as [->|Hne].
    + split; [discriminate | intros [H _]; congruence].
    + rewrite IH. split; [intros H; split; congruence | intros [_ H]; exact H].
Qed.

Lemma get_indexer_unique key cols :
  unique_label key cols <-> exists i, get_indexer key cols 0 = [i].
Proof.
  unfold unique_label. rewrite <- (get_indexer_length key cols 0).
  destruct (get_indexer key cols 0) as [|i [|j l]]; simpl; split;
    try discriminate; try (intros [k Hk]; discriminate); eauto.
Qed.

Lemma label_count_indexer key cols :
  label_count key cols = length (get_indexer key cols 0).
Proof. unfold label_count. symmetry. apply get_indexer_length. Qed.

Lemma unique_label_elem key cols : unique_label key cols -> key ∈ cols.
Proof.
  intros [i Hi]%get_indexer_unique.
  destruct (decide (key ∈ cols)) as [|Hn]; [assumption|].
  apply (get_indexer_nil key cols 0) in Hn. congruence.
Qed.

Lemma row_series_filter key cols r n :
  filter (fun p : string * cell => p.1 = key)
         (imap (fun i c => (c, cell_at r (n + i))) cols)
  = map (fun i => (key, cell_at r i)) (get_indexer key cols n).
Proof.
  revert n. induction cols as [|c cs IH]; intros n; [reflexivity|].
  rewrite imap_cons, filter_cons. simpl.
  assert (Hshift : imap ((fun i c0 => (c0, cell_at r (n + i))) ∘ S) cs
                   = imap (fun i c0 => (c0, cell_at r (S n + i))) cs).
  { apply imap_ext. intros i x _. simpl. f_equal. f_equal. lia. }
  rewrite Hshift, IH. replace (n + 0) with n by lia.
  destruct (decide (c = key)) as [->|]; reflexivity.
Qed.

(** [book[key]] on a row of the frame, by the positions of the label *)
Lemma series_getitem_row key cols r :
  series_getitem (row_series cols r) key
  = match get_indexer key cols 0 with
    | [] => Raise (KeyError key)
    | [i] => Ok (Item (row_series cols r) (cell_at r i))
    | locs => Ok (Items (map (cell_at r) locs))
    end.
Proof.
  unfold series_getitem. unfold row_series at 1.
  change (imap (fun i c => (c, cell_at r i)) cols)
    with (imap (fun i c => (c, cell_at r (0 + i))) cols).
  rewrite (row_series_filter key cols r 0).
  destruct (get_indexer key cols 0) as [|i [|j l]]; simpl; try reflexivity.
  do 3 f_equal. rewrite map_map. reflexivity.
Qed.

Lemma field_at d r key i l :
  get_indexer key (columns d) 0 = i :: l -> field d r key = cell_at r i.
Proof. intros H. unfold field. rewrite H. reflexivity. Qed.

Lemma series_getitem_unique d r key :
  unique_label key (columns d) ->
  series_getitem (row_series (columns d) r) key
  = Ok (Item (row_series (columns d) r) (field d r key)).
Proof.
  intros [i Hi]%get_indexer_unique.
  rewrite series_getitem_row, (field_at d r key i [] Hi), Hi. reflexivity.
Qed.

Lemma series_getitem_row_Raise cols r key e :
  series_getitem (row_series cols r) key = Raise e ->
  e = KeyError key /\ (key ∉ cols).
Proof.
  rewrite series_getitem_row.
  destruct (get_indexer key cols 0) as [|i [|j l]] eqn:Hix; intros H;
    inversion H; subst.
  split; [reflexivity|]. eapply get_indexer_nil, Hix.
Qed.

Lemma series_getitem_row_Item d r key book c :
  series_getitem (row_series (columns d) r) key = Ok (Item book c) ->
  unique_label key (columns d)
  /\ book = row_series (columns d) r /\ c = field d r key.
Proof.
  rewrite series_getitem_row. unfold field.
  destruct (get_indexer key (columns d) 0) as [|i [|j l]] eqn:Hix;
    intros H; inversion H; subst.
  split; [|split; reflexivity]. apply get_indexer_unique. eauto.
Qed.

Lemma select_rows_map (b : list cell -> bool) rs :
  select_rows rs (map b rs) = filter (fun r => b r = true) rs.
Proof.
  induction rs as [|r rs IH]; simpl; [reflexivity|].
  rewrite filter_cons, IH.
  destruct (decide (b r = true)) as [E|E].
  - rewrite E. reflexivity.
  - apply not_true_is_false in E. rewrite E. reflexivity.
Qed.

Lemma astype_str_twice c : astype_str (cell_astype_str c) = astype_str c.
Proof.
  unfold cell_astype_str. destruct (astype_str c) as [s|] eqn:Hc.
  - reflexivity.
  - destruct c; simpl in *; try discriminate. exact Hc.
Qed.

Lemma matching_at d tag i l :
  get_indexer "mood_tag" (columns d) 0 = i :: l ->
  matching d tag = filter (fun r => mood_is (cell_at r i) tag = true) (rows d).
Proof.
  intros H. unfold matching. apply list_filter_iff. intros r.
  unfold matches_mood. rewrite (field_at d r _ i l H). reflexivity.
Qed.

(** What the first statement of [pick_by_mood] computes, by the number of
    columns labelled [mood_tag]. *)
Lemma mood_subset_cases d tag :
  match get_indexer "mood_tag" (columns d) 0 with
  | [] => mood_subset d tag = Raise (KeyError "mood_tag")
  | [_] => mood_subset d tag = Ok (subset_of d tag)
  | _ => mood_subset d tag = Raise (AttributeError "str")
  end.
Proof.
  destruct (get_indexer "mood_tag" (columns d) 0) as [|i [|j l]] eqn:Hix;
    unfold mood_subset, getitem; rewrite Hix; simpl; try reflexivity.
  unfold boolean_index, subset_of, eq_mask. rewrite !map_map.
  rewrite (matching_at d tag i [] Hix).
  rewrite <- (select_rows_map (fun r => mood_is (cell_at r i) tag)).
  do 3 f_equal. apply map_ext. intros r. rewrite astype_str_twice.
  unfold mood_is. destruct (astype_str (cell_at r i)); reflexivity.
Qed.

Lemma mood_subset_unique d tag :
  unique_label "mood_tag" (columns d) ->
  mood_subset d tag = Ok (subset_of d tag).
Proof.
  intros [i Hi]%get_indexer_unique.
  pose proof (mood_subset_cases d tag) as H. rewrite Hi in H. exact H.
Qed.

Lemma mood_subset_Ok d tag sub :
  mood_subset d tag = Ok sub ->
  unique_label "mood_tag" (columns d) /\ sub = subset_of d tag.
Proof.
  intros Hsub. pose proof (mood_subset_cases d tag) as H.
  destruct (get_indexer "mood_tag" (columns d) 0) as [|i [|j l]] eqn:Hix;
    try congruence.
  split; [apply get_indexer_unique; eauto | congruence].
Qed.

Lemma mood_subset_Raise d tag e :
  mood_subset d tag = Raise e ->
  (e = KeyError "mood_tag" /\ label_count "mood_tag" (columns d) = 0)
  \/ (e = AttributeError "str" /\ 2 <= label_count "mood_tag" (columns d)).
Proof.
  intros Hsub. pose proof (mood_subset_cases d tag) as H.
  rewrite label_count_indexer.
  destruct (get_indexer "mood_tag" (columns d) 0) as [|i [|j l]] eqn:Hix.
  - left. split; [congruence | reflexivity].
  - congruence.
  - right. split; [congruence | simpl; lia].
Qed.

Lemma matching_elem d tag r :
  r ∈ matching d tag <-> r ∈ rows d /\ matches_mood d tag r.
Proof. unfold matching. rewrite list_elem_of_filter. tauto. Qed.

Lemma matching_nil d tag : matching d tag = [] <-> ~ some_match d tag.
Proof.
  split.
  - intros Hnil (r & Hin & Hm).
    assert (Hr : r ∈ matching d tag) by (apply matching_elem; auto).
    rewrite Hnil in Hr. by apply elem_of_nil in Hr.
  - intros Hno. destruct (matching d tag) as [|r rs] eqn:E; [reflexivity|].
    exfalso. apply Hno. exists r. apply matching_elem. rewrite E.
    apply list_elem_of_here.
Qed.

Lemma chosen_elem r0 rs w : chosen r0 (r0 :: rs) w ∈ r0 :: rs.
Proof.
  unfold chosen.
  destruct ((r0 :: rs) !! (entropy w (drawn w) mod length (r0 :: rs))) as [r|] eqn:E;
    simpl.
  - eapply list_elem_of_lookup_2. exact E.
  - apply list_elem_of_here.
Qed.

Lemma required_cols_fields key : key ∈ required_cols <-> key ∈ book_fields.
Proof.
  unfold required_cols, book_fields.
  rewrite !elem_of_union, !elem_of_singleton, !elem_of_cons, elem_of_nil.
  tauto.
Qed.

Lemma Table_columns d key : Table d -> key ∈ book_fields -> key ∈ columns d.
Proof.
  intros Ht Hk. apply (elem_of_list_to_set (C := gset string)).
  apply Ht, required_cols_fields, Hk.
Qed.

Lemma Table_nonempty d : Table d -> columns d <> [].
Proof.
  intros Ht Hnil. pose proof (Table_columns d "title" Ht) as H.
  rewrite Hnil in H. eapply not_elem_of_nil. apply H.
  unfold book_fields. apply list_elem_of_here.
Qed.

Lemma unique_fields_Table d : unique_fields d -> Table d.
Proof.
  intros H x Hx%required_cols_fields.
  apply (elem_of_list_to_set (C := gset string)).
  apply unique_label_elem. unfold unique_fields in H.
  rewrite Forall_forall in H. apply H, Hx.
Qed.

Lemma unique_fields_mood d :
  unique_fields d -> unique_label "mood_tag" (columns d).
Proof.
  unfold unique_fields. rewrite Forall_forall. intros H. apply H.
  unfold book_fields. repeat first [apply list_elem_of_here | apply list_elem_of_further].
Qed.

(** ** The store *)

Lemma lookup_new (l : list DataFrame) d : ((l ++ [d])%list) !! length l = Some d.
Proof. apply list_lookup_middle. reflexivity. Qed.

Lemma get_frame_run df d w :
  objs w !! df = Some d -> get_frame df w = (Ok d, w).
Proof. intros H. unfold get_frame. rewrite H. reflexivity. Qed.

Lemma sample1_run df d r0 rs w :
  objs w !! df = Some d -> rows d = r0 :: rs ->
  sample1 df w
  = (Ok (length (objs w)),
     grown [one_row d (chosen r0 (r0 :: rs) w)] (drew w)).
Proof.
  intros Hdf Hrows. unfold sample1, bind.
  rewrite (get_frame_run df d w Hdf), Hrows. reflexivity.
Qed.

(** the statements that end both selectors, on a frame with a row and a
    column *)
Lemma draw_book_run df d r0 rs w :
  objs w !! df = Some d -> rows d = r0 :: rs ->
  (do s <- sample1 df; do book <- iloc0 s; ret (Some book)) w
  = (Ok (Some (row_series (columns d) (chosen r0 (r0 :: rs) w))),
     grown [one_row d (chosen r0 (r0 :: rs) w)] (drew w)).
Proof.
  intros Hdf Hrows. unfold bind at 1.
  rewrite (sample1_run df d r0 rs w Hdf Hrows).
  unfold iloc0, bind, lift, ret.
  rewrite (get_frame_run _ (one_row d (chosen r0 (r0 :: rs) w)))
    by apply lookup_new.
  reflexivity.
Qed.

Lemma pick_random_run df d w :
  objs w !! df = Some d ->
  pick_random df w
  = match rows d with
    | [] => (Ok None, logged CallPickRandom w)
    | r0 :: _ =>
        if bool_decide (columns d = [])
        then (Ok None, logged CallPickRandom w)
        else (Ok (Some (row_series (columns d) (chosen r0 (rows d) w))),
              grown [one_row d (chosen r0 (rows d) w)]
                (drew (logged CallPickRandom w)))
    end.
Proof.
  intros Hdf. unfold pick_random. unfold bind at 1, log_call.
  fold (logged CallPickRandom w).
  unfold bind at 1, frame_empty. unfold bind at 1.
  rewrite (get_frame_run df d (logged CallPickRandom w)) by exact Hdf.
  unfold ret at 1, empty.
  destruct (rows d) as [|r0 rs] eqn:Hrows.
  - rewrite orb_true_r. reflexivity.
  - rewrite orb_false_r. destruct (bool_decide (columns d = [])); [reflexivity|].
    apply (draw_book_run df d r0 rs (logged CallPickRandom w) Hdf Hrows).
Qed.

Lemma pick_random_dangling df w :
  objs w !! df = None ->
  pick_random df w = (Raise Dangling, logged CallPickRandom w).
Proof.
  intros Hdf. unfold pick_random, bind, log_call, frame_empty, bind, get_frame.
  simpl. rewrite Hdf. reflexivity.
Qed.

Lemma pick_by_mood_run df d tag w :
  objs w !! df = Some d ->
  pick_by_mood df tag w
  = match mood_subset d tag with
    | Raise e => (Raise e, logged CallPickByMood w)
    | Ok _ =>
        match matching d tag with
        | [] => (Ok None, grown [subset_of d tag] (logged CallPickByMood w))
        | r0 :: _ =>
            (Ok (Some (row_series (columns d) (chosen r0 (matching d tag) w))),
             grown [one_row d (chosen r0 (matching d tag) w)]
               (drew (grown [subset_of d tag] (logged CallPickByMood w))))
        end
    end.
Proof.
  intros Hdf. unfold pick_by_mood. unfold bind at 1, log_call.
  fold (logged CallPickByMood w). unfold bind at 1.
  rewrite (get_frame_run df d (logged CallPickByMood w)) by exact Hdf.
  unfold bind at 1, lift.
  destruct (mood_subset d tag) as [sub|e] eqn:Hsub; [|reflexivity].
  apply mood_subset_Ok in Hsub as [Hu ->].
  unfold bind at 1, new_frame.
  fold (grown [subset_of d tag] (logged CallPickByMood w)).
  set (w1 := grown [subset_of d tag] (logged CallPickByMood w)).
  assert (Hsub : objs w1 !! length (objs (logged CallPickByMood w))
                 = Some (subset_of d tag)) by apply lookup_new.
  unfold bind at 1, frame_empty. unfold bind at 1.
  rewrite (get_frame_run _ _ w1 Hsub). unfold ret at 1, empty.
  change (rows (subset_of d tag)) with (matching d tag).
  change (columns (subset_of d tag)) with (columns d).
  destruct (matching d tag) as [|r0 rs] eqn:Hm.
  - rewrite orb_true_r. reflexivity.
  - rewrite orb_false_r. rewrite bool_decide_eq_false_2.
    + rewrite (draw_book_run _ (subset_of d tag) r0 rs w1 Hsub Hm). reflexivity.
    + intros Hnil. apply unique_label_elem in Hu. rewrite Hnil in Hu.
      by apply not_elem_of_nil in Hu.
Qed.

Lemma pick_by_mood_dangling df tag w :
  objs w !! df = None ->
  pick_by_mood df tag w = (Raise Dangling, logged CallPickByMood w).
Proof.
  intros Hdf. unfold pick_by_mood, bind, log_call, get_frame.
  simpl. rewrite Hdf. reflexivity.
Qed.

(** ** Encoding and responding *)



Lemma respond_run d code w :
  respond d code w
  = (match jsonify d with
     | Ok b => Ok {| body := b; status := code |}
     | Raise e => Raise e
     end, w).
Proof. unfold respond, bind, lift, ret. destruct (jsonify d); reflexivity. Qed.

Lemma respond_error_run msg code w :
  respond [("error", Str msg)] code w = (Ok (error_response msg code), w).
Proof.
  rewrite respond_run. unfold jsonify, error_response, error_body. simpl.
  rewrite insert_empty. reflexivity.
Qed.

Lemma health_run w : health w = (Ok {| body := ok_body; status := 200 |}, w).
Proof.
  unfold health. rewrite respond_run. unfold jsonify, ok_body. simpl.
  rewrite insert_empty. reflexivity.
Qed.

Lemma json_cell_plain book c : plain c -> json_cell book c = Ok c.
Proof. destruct c; simpl; intros H; try contradiction; reflexivity. Qed.

Lemma json_cell_Raise book c e : json_cell book c = Raise e -> e = TypeError.
Proof.
  destruct c; simpl; try discriminate;
    destruct (json_number book _); intros H; inversion H; reflexivity.
Qed.

Lemma json_value_Raise v e : json_value v = Raise e -> e = TypeError.
Proof.
  destruct v as [s|book c|cs]; simpl; intros H.
  - discriminate H.
  - eapply json_cell_Raise, H.
  - inversion H. reflexivity.
Qed.

Lemma json_items_Raise d e : json_items d = Raise e -> e = TypeError.
Proof.
  induction d as [|[k v] d IH]; simpl; intros H; [discriminate|].
  destruct (json_value v) as [c|e'] eqn:Hv; simpl in H.
  - destruct (json_items d) as [items'|e''] eqn:Hd; simpl in H; [discriminate|].
    inversion H; subst. auto.
  - inversion H; subst. eapply json_value_Raise, Hv.
Qed.

Lemma jsonify_Raise d e : jsonify d = Raise e -> e = TypeError.
Proof.
  unfold jsonify. destruct (json_items d) as [items|e'] eqn:Hd; simpl;
    intros H; inversion H; subst. eapply json_items_Raise, Hd.
Qed.

Ltac step_getitem H key :=
  match type of H with
  | context [series_getitem ?book key] =>
      let v := fresh "v" in
      let Hv := fresh "Hv" in
      destruct (series_getitem book key) as [v|] eqn:Hv; simpl in H
  end.

(** one field read of [book_dict]: either it gives a value, or it is the
    read that raised *)
Ltac field_read H key :=
  match type of H with
  | context [series_getitem ?book key] =>
      let v := fresh "v" in
      let Hv := fresh "Hv" in
      destruct (series_getitem book key) as [v|] eqn:Hv; simpl in H;
      [ clear Hv
      | inversion H; subst;
        apply series_getitem_row_Raise in Hv as [-> Hv];
        exists key; split; [elem_here | split; [exact Hv | reflexivity]] ]
  end.

(** [book_dict] raises only for a field that no column carries *)
Lemma book_dict_Raise cols r e :
  book_dict (row_series cols r) = Raise e ->
  exists key, key ∈ book_fields /\ (key ∉ cols) /\ e = KeyError key.
Proof.
  unfold book_dict, book_fields. intros H.
  field_read H "title". field_read H "author". field_read H "genre".
  field_read H "mood_tag". field_read H "energy". field_read H "notes".
  discriminate.
Qed.

Lemma book_dict_Ok book d :
  book_dict book = Ok d ->
  exists title author genre mood energy notes,
    series_getitem book "title" = Ok title
    /\ series_getitem book "author" = Ok author
    /\ series_getitem book "genre" = Ok genre
    /\ series_getitem book "mood_tag" = Ok mood
    /\ series_getitem book "energy" = Ok energy
    /\ series_getitem book "notes" = Ok notes
    /\ d = [("title", title); ("author", author); ("genre", genre);
            ("mood", mood); ("energy", energy); ("notes", notes)].
Proof.
  unfold book_dict. intros H.
  step_getitem H "title"; [|discriminate].
  step_getitem H "author"; [|discriminate].
  step_getitem H "genre"; [|discriminate].
  step_getitem H "mood_tag"; [|discriminate].
  step_getitem H "energy"; [|discriminate].
  step_getitem H "notes"; [|discriminate].
  inversion H; subst. exists v, v0, v1, v2, v3, v4. repeat split.
Qed.

Lemma book_dict_unique d r :
  unique_fields d ->
  book_dict (row_series (columns d) r)
  = Ok [("title", Item (row_series (columns d) r) (field d r "title"));
        ("author", Item (row_series (columns d) r) (field d r "author"));
        ("genre", Item (row_series (columns d) r) (field d r "genre"));
        ("mood", Item (row_series (columns d) r) (field d r "mood_tag"));
        ("energy", Item (row_series (columns d) r) (field d r "energy"));
        ("notes", Item (row_series (columns d) r) (field d r "notes"))].
Proof.
  unfold unique_fields, book_fields. rewrite !Forall_cons.
  intros (H1 & H2 & H3 & H4 & H5 & H6 & _). unfold book_dict.
  rewrite !series_getitem_unique by assumption. reflexivity.
Qed.

(** a book of text is answered with its fields as they are stored *)
Lemma book_response_plain d r :
  unique_fields d -> plain_row d r ->
  book_response (row_series (columns d) r)
  = Ok {| body := book_body d r; status := 200 |}.
Proof.
  intros Hu Hp. unfold book_response.
  rewrite (book_dict_unique d r Hu). simpl.
  unfold plain_row, book_fields in Hp. rewrite !Forall_cons in Hp.
  destruct Hp as (H1 & H2 & H3 & H4 & H5 & H6 & _).
  unfold jsonify, json_items, json_value.
  rewrite !json_cell_plain by assumption. reflexivity.
Qed.


Lemma plain_row_encodable d r : plain_row d r -> encodable_row d r.
Proof.
  unfold plain_row, encodable_row. intros H.
  eapply Forall_impl; [exact H|]. intros key Hp.
  exists (field d r key). apply json_cell_plain, Hp.
Qed.

Lemma series_getitem_row_value d r key v c :
  series_getitem (row_series (columns d) r) key = Ok v ->
  json_value v = Ok c ->
  unique_label key (columns d)
  /\ json_cell (row_series (columns d) r) (field d r key) = Ok c.
Proof.
  rewrite series_getitem_row. unfold field. intros Hv Hc.
  destruct (get_indexer key (columns d) 0) as [|i [|j l]] eqn:Hix;
    inversion Hv; subst; simpl in Hc; [|discriminate Hc].
  split; [apply get_indexer_unique; eauto | exact Hc].
Qed.

(** a book of the frame is answered only when its six labels are unique,
    and then with what the encoder writes for its six fields *)
Lemma book_response_Ok d r resp :
  book_response (row_series (columns d) r) = Ok resp ->
  unique_fields d /\ status resp = 200 /\ renders d r (body resp).
Proof.
  unfold book_response. intros H.
  destruct (book_dict _) as [dict|] eqn:Hd; simpl in H; [|discriminate H].
  apply book_dict_Ok in Hd
    as (t & a & g & m & e & n & Ht & Ha & Hg & Hm & Hen & Hn & ->).
  unfold jsonify, json_items in H.
  destruct (json_value t) as [ct|] eqn:Ct; simpl in H; [|discriminate H].
  destruct (json_value a) as [ca|] eqn:Ca; simpl in H; [|discriminate H].
  destruct (json_value g) as [cg|] eqn:Cg; simpl in H; [|discriminate H].
  destruct (json_value m) as [cm|] eqn:Cm; simpl in H; [|discriminate H].
  destruct (json_value e) as [ce|] eqn:Ce; simpl in H; [|discriminate H].
  destruct (json_value n) as [cn|] eqn:Cn; simpl in H; [|discriminate H].
  destruct (series_getitem_row_value _ _ _ _ _ Ht Ct) as [Ut Rt].
  destruct (series_getitem_row_value _ _ _ _ _ Ha Ca) as [Ua Ra].
  destruct (series_getitem_row_value _ _ _ _ _ Hg Cg) as [Ug Rg].
  destruct (series_getitem_row_value _ _ _ _ _ Hm Cm) as [Um Rm].
  destruct (series_getitem_row_value _ _ _ _ _ Hen Ce) as [Ue Re].
  destruct (series_getitem_row_value _ _ _ _ _ Hn Cn) as [Un Rn].
  inversion H; subst resp. simpl.
  split; [repeat constructor; assumption|]. split; [reflexivity|].
  split.
  - unfold book_keys. rewrite !dom_insert_L, dom_empty_L.
    apply set_eq. intros x.
    rewrite !elem_of_union, !elem_of_singleton, elem_of_empty. tauto.
  - intros k label Hin. unfold book_items in Hin.
    rewrite !elem_of_cons, elem_of_nil in Hin.
    destruct Hin as [Hin|[Hin|[Hin|[Hin|[Hin|[Hin|[]]]]]]];
      inversion Hin; subst; eexists; (split; [eassumption|]);
      repeat (rewrite lookup_insert_ne by discriminate);
      apply lookup_insert_eq.
Qed.

Lemma book_response_Raise cols r e :
  book_response (row_series cols r) = Raise e ->
  e = TypeError \/ exists key, key ∈ book_fields /\ (key ∉ cols) /\ e = KeyError key.
Proof.
  unfold book_response. destruct (book_dict _) as [d|e'] eqn:Hd; simpl.
  - destruct (jsonify d) as [b|e''] eqn:Hj; simpl; intros H; inversion H; subst.
    left. eapply jsonify_Raise, Hj.
  - intros H; inversion H; subst. right. eapply book_dict_Raise, Hd.
Qed.



(** ** The views, run *)

Lemma random_book_run w d :
  table w = Some d ->
  random_book w
  = match rows d with
    | [] => (Ok (error_response "no_books" 404), logged CallPickRandom w)
    | r0 :: _ =>
        if bool_decide (columns d = [])
        then (Ok (error_response "no_books" 404), logged CallPickRandom w)
        else (book_response (row_series (columns d) (chosen r0 (rows d) w)),
              grown [one_row d (chosen r0 (rows d) w)]
                (drew (logged CallPickRandom w)))
    end.
Proof.
  intros Ht. unfold random_book, bind at 1, read_BOOKS_DF. unfold bind at 1.
  rewrite (pick_random_run _ d w Ht).
  destruct (rows d) as [|r0 rs]; [apply respond_error_run|].
  destruct (bool_decide (columns d = [])); [apply respond_error_run|].
  unfold bind, lift, book_response.
  destruct (book_dict _) as [dict|e]; simpl; [|reflexivity].
  rewrite respond_run. destruct (jsonify dict); reflexivity.
Qed.

Lemma random_book_dangling w :
  table w = None ->
  random_book w = (Raise Dangling, logged CallPickRandom w).
Proof.
  intros Ht. unfold random_book, bind at 1, read_BOOKS_DF. unfold bind at 1.
  rewrite (pick_random_dangling _ w Ht). reflexivity.
Qed.

Lemma mood_book_missing_tag_run args w :
  args_get args "tag" = None \/ args_get args "tag" = Some EmptyString ->
  mood_book args w = (Ok (error_response "missing_tag_param" 400), w).
Proof.
  intros Hget. unfold mood_book.
  destruct Hget as [-> | ->]; apply respond_error_run.
Qed.

Lemma mood_book_run args tag w d :
  args_get args "tag" = Some tag -> tag <> EmptyString ->
  table w = Some d ->
  mood_book args w
  = match mood_subset d tag with
    | Raise e => (Raise e, logged CallPickByMood w)
    | Ok _ =>
        match matching d tag with
        | [] => (Ok (error_response "no_books_for_mood" 404),
                 grown [subset_of d tag] (logged CallPickByMood w))
        | r0 :: _ =>
            (book_response
               (row_series (columns d) (chosen r0 (matching d tag) w)),
             grown [one_row d (chosen r0 (matching d tag) w)]
               (drew (grown [subset_of d tag] (logged CallPickByMood w))))
        end
    end.
Proof.
  intros Hget Htag Ht. unfold mood_book. rewrite Hget.
  rewrite bool_decide_eq_false_2 by exact Htag.
  unfold bind at 1, read_BOOKS_DF. unfold bind at 1.
  rewrite (pick_by_mood_run _ d tag w Ht).
  destruct (mood_subset d tag) as [sub|e]; [|reflexivity].
  destruct (matching d tag) as [|r0 rs]; [apply respond_error_run|].
  unfold bind, lift, book_response.
  destruct (book_dict _) as [dict|e]; simpl; [|reflexivity].
  rewrite respond_run. destruct (jsonify dict); reflexivity.
Qed.

Lemma mood_book_dangling args tag w :
  args_get args "tag" = Some tag -> tag <> EmptyString ->
  table w = None ->
  mood_book args w = (Raise Dangling, logged CallPickByMood w).
Proof.
  intros Hget Htag Ht. unfold mood_book. rewrite Hget.
  rewrite bool_decide_eq_false_2 by exact Htag.
  unfold bind at 1, read_BOOKS_DF. unfold bind at 1.
  rewrite (pick_by_mood_dangling _ tag w Ht). reflexivity.
Qed.

(** the three ways [mood_book] goes, by its [tag] parameter *)
Lemma mood_book_cases (args : list (string * string)) :
  (args_get args "tag" = None \/ args_get args "tag" = Some EmptyString)
  \/ exists tag, args_get args "tag" = Some tag /\ tag <> EmptyString.
Proof.
  destruct (args_get args "tag") as [tag|]; [|auto].
  destruct (decide (tag = EmptyString)) as [->|Hne]; [auto|].
  right. exists tag. auto.
Qed.

(** ** What is written and what is kept *)

Lemma preserved_refl w : preserved w w.
Proof. split; reflexivity. Qed.

Lemma preserved_trans w1 w2 w3 :
  preserved w1 w2 -> preserved w2 w3 -> preserved w1 w3.
Proof.
  intros [Hb1 Ho1] [Hb2 Ho2]. split; [congruence|].
  etransitivity; eassumption.
Qed.

Lemma preserved_lookup w w' df d :
  preserved w w' -> objs w !! df = Some d -> objs w' !! df = Some d.
Proof. intros [_ Hpre] Hdf. eapply prefix_lookup_Some; eassumption. Qed.

Lemma preserved_table w w' d :
  preserved w w' -> table w = Some d -> table w' = Some d.
Proof.
  intros Hp Ht. unfold table in *. rewrite (proj1 Hp).
  eapply preserved_lookup; eassumption.
Qed.

Lemma preserved_logged c w : preserved w (logged c w).
Proof. split; reflexivity. Qed.

Lemma preserved_drew w : preserved w (drew w).
Proof. split; reflexivity. Qed.

Lemma preserved_grown ds w : preserved w (grown ds w).
Proof. split; [reflexivity|]. simpl. apply prefix_app_r. reflexivity. Qed.

Lemma keeps_ret {A} (a : A) : keeps (ret a).
Proof. intros w. apply preserved_refl. Qed.

Lemma keeps_raise {A} e : keeps (@raise A e).
Proof. intros w. apply preserved_refl. Qed.

Lemma keeps_lift {A} (r : Result A) : keeps (lift r).
Proof. intros w. apply preserved_refl. Qed.

Lemma keeps_bind {A B} (m : M A) (k : A -> M B) :
  keeps m -> (forall a, keeps (k a)) -> keeps (bind m k).
Proof.
  intros Hm Hk w. unfold bind. specialize (Hm w).
  destruct (m w) as [[a|e] w']; simpl in *; [|exact Hm].
  eapply preserved_trans; [exact Hm | apply Hk].
Qed.

Lemma keeps_new_frame d : keeps (new_frame d).
Proof. intros w. apply (preserved_grown [d] w). Qed.

Lemma keeps_get_frame df : keeps (get_frame df).
Proof.
  intros w. unfold get_frame. destruct (objs w !! df); apply preserved_refl.
Qed.

Lemma keeps_read_BOOKS_DF : keeps read_BOOKS_DF.
Proof. intros w. apply preserved_refl. Qed.

Lemma keeps_log_call c : keeps (log_call c).
Proof. intros w. apply preserved_logged. Qed.

Lemma keeps_draw_below n : keeps (draw_below n).
Proof. intros w. apply preserved_drew. Qed.

Lemma keeps_frame_empty df : keeps (frame_empty df).
Proof.
  apply keeps_bind; [apply keeps_get_frame | intros d; apply keeps_ret].
Qed.

Lemma keeps_sample1 df : keeps (sample1 df).
Proof.
  apply keeps_bind; [apply keeps_get_frame|]. intros d.
  destruct (rows d); [apply keeps_raise|].
  apply keeps_bind; [apply keeps_draw_below | intros i; apply keeps_new_frame].
Qed.

Lemma keeps_iloc0 df : keeps (iloc0 df).
Proof.
  apply keeps_bind; [apply keeps_get_frame | intros d; apply keeps_lift].
Qed.

Lemma keeps_respond d code : keeps (respond d code).
Proof.
  apply keeps_bind; [apply keeps_lift | intros b; apply keeps_ret].
Qed.

Lemma keeps_pick_random df : keeps (pick_random df).
Proof.
  apply keeps_bind; [apply keeps_log_call | intros _].
  apply keeps_bind; [apply keeps_frame_empty | intros e].
  destruct e; [apply keeps_ret|].
  apply keeps_bind; [apply keeps_sample1 | intros s].
  apply keeps_bind; [apply keeps_iloc0 | intros book; apply keeps_ret].
Qed.

Lemma keeps_pick_by_mood df tag : keeps (pick_by_mood df tag).
Proof.
  apply keeps_bind; [apply keeps_log_call | intros _].
  apply keeps_bind; [apply keeps_get_frame | intros d].
  apply keeps_bind; [apply keeps_lift | intros sub].
  apply keeps_bind; [apply keeps_new_frame | intros subset].
  apply keeps_bind; [apply keeps_frame_empty | intros e].
  destruct e; [apply keeps_ret|].
  apply keeps_bind; [apply keeps_sample1 | intros s].
  apply keeps_bind; [apply keeps_iloc0 | intros book; apply keeps_ret].
Qed.

Lemma keeps_view req : keeps (view req).
Proof.
  destruct req as [| |args]; cbn [view].
  - apply keeps_respond.
  - apply keeps_bind; [apply keeps_read_BOOKS_DF | intros df].
    apply keeps_bind; [apply keeps_pick_random | intros [book|]].
    + apply keeps_bind; [apply keeps_lift | intros d; apply keeps_respond].
    + apply keeps_respond.
  - unfold mood_book. destruct (args_get args "tag") as [mood|];
      [|apply keeps_respond].
    destruct (bool_decide (mood = EmptyString)); [apply keeps_respond|].
    apply keeps_bind; [apply keeps_read_BOOKS_DF | intros df].
    apply keeps_bind; [apply keeps_pick_by_mood | intros [book|]].
    + apply keeps_bind; [apply keeps_lift | intros d; apply keeps_respond].
    + apply keeps_respond.
Qed.

Lemma serve_all_preserved reqs w : preserved w (serve_all reqs w).2.
Proof.
  revert w. induction reqs as [|req reqs IH]; intros w; simpl;
    [apply preserved_refl|].
  pose proof (keeps_view req w) as Hview.
  destruct (view req w) as [out w']. simpl in Hview.
  pose proof (IH w') as Hrest.
  destruct (serve_all reqs w') as [outs w'']. simpl in *.
  eapply preserved_trans; eassumption.
Qed.

(** ** The loader, run *)

Lemma insert_new (l : list DataFrame) d d' :
  <[length l := d']> ((l ++ [d])%list) = (l ++ [d'])%list.
Proof.
  rewrite insert_app_r_alt by lia. rewrite Nat.sub_diag. reflexivity.
Qed.

Lemma load_books_run fs d0 w :
  fs CSV_PATH = Ok d0 ->
  load_books fs w
  = (if decide (required_cols ∖ list_to_set (normalized (columns d0)) = ∅)
     then Ok (length (objs w))
     else Raise (ValueError (CsvMissingColumns
                   (required_cols ∖ list_to_set (normalized (columns d0))))),
     grown [{| columns := normalized (columns d0); rows := rows d0 |}] w).
Proof.
  intros Hread. unfold load_books, read_csv. rewrite Hread.
  unfold bind at 1, new_frame. unfold bind at 1.
  rewrite (get_frame_run _ d0) by apply lookup_new.
  unfold bind at 1, set_columns. cbn [objs set_objs].
  rewrite lookup_new. fold (normalized (columns d0)).
  rewrite decide_True by (unfold normalized; apply length_map).
  rewrite insert_new. cbn [set_objs objs BOOKS_DF entropy drawn calls].
  unfold bind at 1.
  rewrite (get_frame_run _ {| columns := normalized (columns d0);
                              rows := rows d0 |}) by apply lookup_new.
  cbn [columns]. unfold grown, set_objs. cbn [objs].
  destruct (decide _); reflexivity.
Qed.

Lemma load_books_unread fs e w :
  fs CSV_PATH = Raise e -> load_books fs w = (Raise e, w).
Proof. intros Hread. unfold load_books, read_csv. rewrite Hread. reflexivity. Qed.

Lemma difference_empty_subseteq (X Y : gset string) : X ∖ Y = ∅ <-> X ⊆ Y.
Proof.
  split.
  - intros H x Hx. destruct (decide (x ∈ Y)) as [|Hn]; [assumption|].
    exfalso. apply (not_elem_of_empty (C := gset string) x).
    rewrite <- H. apply elem_of_difference. auto.
  - intros H. apply set_eq. intros x.
    rewrite elem_of_difference, elem_of_empty. split; [|tauto].
    intros [Hx Hn]. apply Hn, H, Hx.
Qed.

(** what start-up gives: a world whose table is the loaded frame *)
Lemma startup_Ok fs rand w :
  startup fs rand = Ok w ->
  exists d0, fs CSV_PATH = Ok d0
    /\ required_cols ⊆ list_to_set (normalized (columns d0))
    /\ table w = Some {| columns := normalized (columns d0); rows := rows d0 |}.
Proof.
  unfold startup. destruct (fs CSV_PATH) as [d0|e] eqn:Hread.
  - rewrite (load_books_run fs d0 _ Hread).
    destruct (decide _) as [Hm|]; [|discriminate].
    intros H; inversion H; subst w. exists d0. split; [reflexivity|].
    split; [apply difference_empty_subseteq, Hm | reflexivity].
  - rewrite (load_books_unread fs e _ Hread). discriminate.
Qed.

(** ** The selectors *)

Lemma matches_mood_text d tag r :
  matches_mood d tag r
  <-> exists s, astype_str (field d r "mood_tag") = Some s
                /\ series_str_lower s = str_lower tag.
Proof.
  unfold matches_mood, mood_is.
  destruct (astype_str (field d r "mood_tag")) as [s|].
  - rewrite bool_decide_eq_true. split.
    + intros H. exists s. auto.
    + intros (s' & Hs & H). inversion Hs; subst. exact H.
  - split; [discriminate|]. intros (s & Hs & _). discriminate Hs.
Qed.

(** C1 (amended): for every table in which exactly one column is labelled
    [mood_tag], every tag and every state of the random generator,
    [pick_by_mood] returns [None] exactly when no row's [mood_tag],
    converted to text, equals the tag once both are lower-cased, and
    otherwise returns a row of the table that matches in this sense.  The
    match is equality of the whole lower-cased strings: the row's value
    has a text under [astype(str)], and [Series.str.lower] makes of it
    what [str.lower] makes of the tag; a value that stays missing matches
    no tag. *)
Theorem pick_by_mood_matches d df tag w :
  objs w !! df = Some d ->
  unique_label "mood_tag" (columns d) ->
  pick_by_mood_spec d df tag w
  /\ (forall r, matches_mood d tag r
                <-> exists s, astype_str (field d r "mood_tag") = Some s
                              /\ series_str_lower s = str_lower tag).
Proof.
  intros Hdf Hu. split; [|intros r; apply matches_mood_text].
  unfold pick_by_mood_spec. rewrite (pick_by_mood_run df d tag w Hdf).
  rewrite (mood_subset_unique d tag Hu).
  destruct (matching d tag) as [|r0 rs] eqn:Hm; simpl.
  - apply matching_nil in Hm. split; [tauto|]. intros Hs. contradiction.
  - assert (Hin : chosen r0 (r0 :: rs) w ∈ matching d tag)
      by (rewrite Hm; apply chosen_elem).
    apply matching_elem in Hin as [Hrow Hmatch].
    split.
    + split; [discriminate|]. intros Hno. exfalso. apply Hno.
      exists (chosen r0 (r0 :: rs) w). auto.
    + intros _. exists (chosen r0 (r0 :: rs) w). auto.
Qed.

(** The condition of the amended C1 is the weakest one: where the label
    [mood_tag] is absent or repeated, the call raises. *)
Lemma pick_by_mood_spec_unique d df tag w :
  objs w !! df = Some d ->
  pick_by_mood_spec d df tag w -> unique_label "mood_tag" (columns d).
Proof.
  intros Hdf [Hnone Hsome].
  rewrite (pick_by_mood_run df d tag w Hdf) in Hnone, Hsome.
  destruct (mood_subset d tag) as [sub|e] eqn:Hsub.
  - apply mood_subset_Ok in Hsub as [Hu _]. exact Hu.
  - simpl in *. assert (Hn : ~ some_match d tag).
    { intros Hs. destruct (Hsome Hs) as (r & _ & _ & Hout). discriminate Hout. }
    apply Hnone in Hn. discriminate Hn.
Qed.

(** C2: for every table (a frame with the six required columns) and every
    state of the random generator, [pick_random] returns [None] exactly
    when the table has no rows, and a row of the table otherwise. *)
Theorem pick_random_member d df w :
  objs w !! df = Some d ->
  Table d ->
  ((pick_random df w).1 = Ok None <-> rows d = [])
  /\ (rows d <> [] ->
      exists r, r ∈ rows d
                /\ (pick_random df w).1 = Ok (Some (row_series (columns d) r))).
Proof.
  intros Hdf Ht%Table_nonempty. rewrite (pick_random_run df d w Hdf).
  destruct (rows d) as [|r0 rs] eqn:Hrows; simpl.
  - split; [tauto|]. intros H. contradiction.
  - rewrite bool_decide_eq_false_2 by exact Ht. simpl. split.
    + split; discriminate.
    + intros _. exists (chosen r0 (r0 :: rs) w).
      split; [apply chosen_elem | reflexivity].
Qed.

(** ** Loading and start-up *)

(** C3: loading succeeds exactly when the file is read and its column
    names, stripped and lower-cased, include the six required names; the
    table it gives carries the rewritten names over the rows as read.  If
    one of the six names is absent after that rewriting, [load_books]
    raises the error that lists it, and so does start-up, whatever the
    requests that were to follow: none of them is answered. *)
Theorem load_books_required fs w :
  ((exists df, (load_books fs w).1 = Ok df)
   <-> exists d, fs CSV_PATH = Ok d
                 /\ required_cols ⊆ list_to_set (normalized (columns d)))
  /\ (forall d, fs CSV_PATH = Ok d ->
        required_cols ⊆ list_to_set (normalized (columns d)) ->
        exists df, (load_books fs w).1 = Ok df
                   /\ objs (load_books fs w).2 !! df
                      = Some {| columns := normalized (columns d);
                                rows := rows d |})
  /\ (forall d key, fs CSV_PATH = Ok d ->
        key ∈ required_cols -> key ∉ normalized (columns d) ->
        exists missing,
          key ∈ missing
          /\ (load_books fs w).1 = Raise (ValueError (CsvMissingColumns missing))
          /\ forall rand reqs,
               run fs rand reqs
               = Raise (ValueError (CsvMissingColumns missing))).
Proof.
  split; [|split].
  - split.
    + intros [df Hdf]. destruct (fs CSV_PATH) as [d|e] eqn:Hread.
      * exists d. split; [reflexivity|].
        rewrite (load_books_run fs d w Hread) in Hdf. simpl in Hdf.
        destruct (decide _) as [Hm|] in Hdf; [|discriminate].
        apply difference_empty_subseteq, Hm.
      * rewrite (load_books_unread fs e w Hread) in Hdf. discriminate.
    + intros (d & Hread & Hsub). rewrite (load_books_run fs d w Hread).
      rewrite decide_True by (apply difference_empty_subseteq, Hsub).
      eexists; reflexivity.
  - intros d Hread Hsub. rewrite (load_books_run fs d w Hread).
    rewrite decide_True by (apply difference_empty_subseteq, Hsub).
    exists (length (objs w)). split; [reflexivity|]. apply lookup_new.
  - intros d key Hread Hkey Hnot.
    exists (required_cols ∖ list_to_set (normalized (columns d))).
    assert (Hin : key ∈ required_cols ∖ list_to_set (normalized (columns d))).
    { apply elem_of_difference. split; [exact Hkey|].
      rewrite elem_of_list_to_set. exact Hnot. }
    assert (Hne : required_cols ∖ list_to_set (normalized (columns d)) <> ∅).
    { intros Hempty. rewrite Hempty in Hin.
      by apply not_elem_of_empty in Hin. }
    split; [exact Hin|]. split.
    + rewrite (load_books_run fs d w Hread).
      rewrite decide_False by exact Hne. reflexivity.
    + intros rand reqs. unfold run, startup.
      rewrite (load_books_run fs d _ Hread).
      rewrite decide_False by exact Hne. reflexivity.
Qed.

(** ** The views *)

(** C4: a request to [/mood] whose [tag] parameter is absent or empty is
    answered with status 400 and the body [{"error": "missing_tag_param"}],
    on every table; the world is left as it was, so that no selector was
    called and no random draw was taken. *)
Theorem mood_book_missing_tag args w :
  args_get args "tag" = None \/ args_get args "tag" = Some EmptyString ->
  mood_book args w = (Ok (error_response "missing_tag_param" 400), w)
  /\ calls (mood_book args w).2 = calls w.
Proof.
  intros Hget. rewrite (mood_book_missing_tag_run args w Hget).
  split; reflexivity.
Qed.




Lemma matching_same_lower d tag1 tag2 :
  str_lower tag1 = str_lower tag2 -> matching d tag1 = matching d tag2.
Proof.
  intros Hcase. unfold matching. apply list_filter_iff. intros r.
  unfold matches_mood, mood_is. rewrite Hcase. reflexivity.
Qed.

Lemma mood_subset_same_lower d tag1 tag2 :
  str_lower tag1 = str_lower tag2 -> mood_subset d tag1 = mood_subset d tag2.
Proof. intros Hcase. unfold mood_subset. rewrite Hcase. reflexivity. Qed.

(** C7 (amended): two tags whose lower-case forms under [str.lower] are
    equal, as those of Happy and HAPPY are, select the same candidate rows
    of every table: the first statement of [pick_by_mood] computes the
    same subset for both, the call as a whole is the same computation, and
    so the books it can return are the same. *)
Theorem pick_by_mood_case_insensitive d tag1 tag2 :
  str_lower tag1 = str_lower tag2 ->
  mood_subset d tag1 = mood_subset d tag2
  /\ (forall df w, pick_by_mood df tag1 w = pick_by_mood df tag2 w)
  /\ (forall book, can_return d tag1 book <-> can_return d tag2 book).
Proof.
  intros Hcase.
  assert (Hrun : forall df w, pick_by_mood df tag1 w = pick_by_mood df tag2 w).
  { intros df w. unfold pick_by_mood, bind, log_call, get_frame. simpl.
    destruct (objs w !! df) as [d'|]; [|reflexivity].
    rewrite (mood_subset_same_lower d' tag1 tag2 Hcase). reflexivity. }
  split; [apply mood_subset_same_lower, Hcase|]. split; [exact Hrun|].
  intros book. unfold can_return.
  split; intros (w & df & Hdf & Hw); exists w, df; (split; [exact Hdf|]);
    [rewrite <- Hrun | rewrite Hrun]; exact Hw.
Qed.

(** ** The table is only read *)

(** C8: the selectors and the views only read the table.  The store holds
    the frames as objects that can be written in place, as [load_books]
    writes the column names of the frame it has read; yet whatever the
    frame and the tag a selector is called with, whatever the request a
    view serves and however many requests are served in a row, [BOOKS_DF]
    names the same object afterwards and every frame object that existed,
    the table among them, has the labels and the rows it had: the frames
    that [df[mask]] and [sample] build are new objects. *)
Theorem table_never_written w :
  (forall df, preserved w (pick_random df w).2)
  /\ (forall df tag, preserved w (pick_by_mood df tag w).2)
  /\ (forall req, preserved w (view req w).2)
  /\ (forall reqs, preserved w (serve_all reqs w).2)
  /\ (forall reqs d, table w = Some d -> table (serve_all reqs w).2 = Some d).
Proof.
  split; [intros df; apply keeps_pick_random|].
  split; [intros df tag; apply keeps_pick_by_mood|].
  split; [intros req; apply keeps_view|].
  split; [intros reqs; apply serve_all_preserved|].
  intros reqs d Ht. eapply preserved_table; [apply serve_all_preserved | exact Ht].
Qed.

(** ** The mood of a response *)

(** C9: in every 200 response of [GET /mood] the [mood] field is what the
    encoder writes for the [mood_tag] cell of a row of the table that
    matches the tag; a text is written as it is stored, with the letter
    case it has there, so whenever the stored text is not the very string
    the caller sent, the [mood] of the response is not the caller's tag. *)
Theorem mood_book_mood_is_stored args w resp :
  (mood_book args w).1 = Ok resp -> status resp = 200 ->
  exists d tag r,
    table w = Some d
    /\ args_get args "tag" = Some tag
    /\ r ∈ rows d
    /\ matches_mood d tag r
    /\ (exists v, json_cell (row_series (columns d) r) (field d r "mood_tag")
                  = Ok v
                  /\ body resp !! "mood" = Some v)
    /\ (forall s, field d r "mood_tag" = CStr s ->
          body resp !! "mood" = Some (CStr s)
          /\ (s <> tag -> body resp !! "mood" <> Some (CStr tag))).
Proof.
  intros Hout Hstatus.
  destruct (mood_book_cases args) as [Hno | (tag & Hget & Hne)].
  { rewrite (mood_book_missing_tag_run args w Hno) in Hout.
    inversion Hout; subst. discriminate Hstatus. }
  destruct (table w) as [d|] eqn:Ht.
  2:{ rewrite (mood_book_dangling args tag w Hget Hne Ht) in Hout.
      discriminate Hout. }
  rewrite (mood_book_run args tag w d Hget Hne Ht) in Hout.
  destruct (mood_subset d tag) as [sub|e] eqn:Hsub; [|discriminate Hout].
  destruct (matching d tag) as [|r0 rs] eqn:Hm.
  { inversion Hout; subst. discriminate Hstatus. }
  simpl in Hout.
  assert (Hin : chosen r0 (r0 :: rs) w ∈ matching d tag)
    by (rewrite Hm; apply chosen_elem).
  apply matching_elem in Hin as [Hrow Hmatch].
  apply book_response_Ok in Hout as (_ & _ & _ & Hrender).
  destruct (Hrender "mood" "mood_tag") as (v & Hv & Hb);
    [unfold book_items; elem_here|].
  exists d, tag, (chosen r0 (r0 :: rs) w).
  split; [reflexivity|]. split; [exact Hget|]. split; [exact Hrow|].
  split; [exact Hmatch|]. split; [exists v; auto|].
  intros s Hs. rewrite Hs in Hv. simpl in Hv. inversion Hv; subst v.
  split; [exact Hb|]. intros Hdiff Heq. rewrite Hb in Heq.
  inversion Heq. contradiction.
Qed.

(** ** No missing key at request time *)

Lemma getitem_Table d key e :
  Table d -> key ∈ book_fields -> getitem d key <> Raise (KeyError e).
Proof.
  intros Ht Hk. unfold getitem.
  destruct (get_indexer key (columns d) 0) as [|i [|j l]] eqn:Hix;
    try discriminate.
  apply get_indexer_nil in Hix. exfalso. apply Hix, Table_columns; assumption.
Qed.

Lemma Table_mood_count d : Table d -> label_count "mood_tag" (columns d) <> 0.
Proof.
  intros Ht Hzero. unfold label_count in Hzero.
  apply length_zero_iff_nil in Hzero.
  assert (Hin : "mood_tag" ∈ columns d)
    by (apply Table_columns; [exact Ht | unfold book_fields; elem_here]).
  assert (Hf : "mood_tag" ∈ filter (fun c => c = "mood_tag") (columns d))
    by (apply list_elem_of_filter; auto).
  rewrite Hzero in Hf. by apply elem_of_nil in Hf.
Qed.

Lemma pick_by_mood_no_KeyError d df tag w key :
  objs w !! df = Some d -> Table d ->
  (pick_by_mood df tag w).1 <> Raise (KeyError key).
Proof.
  intros Hdf Ht. rewrite (pick_by_mood_run df d tag w Hdf).
  destruct (mood_subset d tag) as [sub|e] eqn:Hsub.
  - destruct (matching d tag); discriminate.
  - simpl. apply mood_subset_Raise in Hsub as [[-> Hn] | [-> _]];
      [|discriminate].
    exfalso. eapply Table_mood_count; eassumption.
Qed.

Lemma book_response_no_KeyError d r key :
  Table d -> book_response (row_series (columns d) r) <> Raise (KeyError key).
Proof.
  intros Ht Hr. apply book_response_Raise in Hr as [Hr | (k & Hk & Hn & _)];
    [discriminate|].
  apply Hn, Table_columns; assumption.
Qed.

Lemma view_no_KeyError req w d key :
  table w = Some d -> Table d -> (view req w).1 <> Raise (KeyError key).
Proof.
  intros Htab Ht. destruct req as [| |args]; cbn [view].
  - rewrite health_run. discriminate.
  - rewrite (random_book_run w d Htab). destruct (rows d); [discriminate|].
    destruct (bool_decide _); [discriminate|].
    apply book_response_no_KeyError, Ht.
  - destruct (mood_book_cases args) as [Hno | (tag & Hget & Hne)].
    + rewrite (mood_book_missing_tag_run args w Hno). discriminate.
    + rewrite (mood_book_run args tag w d Hget Hne Htab).
      destruct (mood_subset d tag) as [sub|e] eqn:Hsub.
      * destruct (matching d tag); [discriminate|].
        apply book_response_no_KeyError, Ht.
      * simpl. apply mood_subset_Raise in Hsub as [[-> Hn] | [-> _]];
          [|discriminate].
        exfalso. eapply Table_mood_count; eassumption.
Qed.

Lemma serve_all_no_KeyError reqs w d :
  table w = Some d -> Table d ->
  Forall (fun out => forall key, out <> Raise (KeyError key)) (serve_all reqs w).1.
Proof.
  revert w. induction reqs as [|req reqs IH]; intros w Htab Ht; simpl;
    [constructor|].
  pose proof (fun key => view_no_KeyError req w d key Htab Ht) as Hview.
  pose proof (keeps_view req w) as Hkeep.
  destruct (view req w) as [out w']. simpl in *.
  pose proof (preserved_table w w' d Hkeep Htab) as Htab'.
  specialize (IH w' Htab' Ht). destruct (serve_all reqs w') as [outs w''].
  simpl in *. constructor; assumption.
Qed.

Lemma startup_Table fs rand w :
  startup fs rand = Ok w -> exists d, table w = Some d /\ Table d.
Proof.
  intros (d0 & _ & Hsub & Htab)%startup_Ok. eexists. split; [exact Htab|].
  exact Hsub.
Qed.

(** C10: on every table that has the six required columns, no read by
    label hits a missing key: not the lookup of the [mood_tag] column, not
    the read of one of the six fields of a row, hence not [pick_by_mood]
    for any tag nor any view for any request, an empty table included.
    From start-up on: when the process starts, none of the requests it
    serves ends in [KeyError]. *)
Theorem no_missing_key d key :
  Table d ->
  getitem d "mood_tag" <> Raise (KeyError key)
  /\ (forall r f, f ∈ book_fields ->
        series_getitem (row_series (columns d) r) f <> Raise (KeyError key))
  /\ (forall df tag w, objs w !! df = Some d ->
        (pick_by_mood df tag w).1 <> Raise (KeyError key))
  /\ (forall req w, table w = Some d -> (view req w).1 <> Raise (KeyError key))
  /\ (forall fs rand reqs outs,
        run fs rand reqs = Ok outs ->
        Forall (fun out => out <> Raise (KeyError key)) outs).
Proof.
  intros Ht. split; [|split; [|split; [|split]]].
  - apply getitem_Table; [exact Ht|]. unfold book_fields. elem_here.
  - intros r f Hf Hr. apply series_getitem_row_Raise in Hr as [_ Hn].
    apply Hn, Table_columns; assumption.
  - intros df tag w Hdf. eapply pick_by_mood_no_KeyError; eassumption.
  - intros req w Htab. eapply view_no_KeyError; eassumption.
  - intros fs rand reqs outs Hrun. unfold run in Hrun.
    destruct (startup fs rand) as [w|] eqn:Hstart; [|discriminate Hrun].
    simpl in Hrun. inversion Hrun; subst outs.
    destruct (startup_Table fs rand w Hstart) as (d' & Htab & Ht').
    eapply Forall_impl; [apply (serve_all_no_KeyError reqs w d' Htab Ht')|].
    intros out H. apply H.
Qed.

(** ** Loading, in detail *)

(** X2: the table that [load_books] returns is a new frame object; it has
    as many columns as the file and the rows of the file, and the label of
    each column is the name the file gives it, stripped and then
    lower-cased.  The frame objects that existed are left as they were. *)
Theorem load_books_labels fs w df :
  (load_books fs w).1 = Ok df ->
  exists d0 d,
    fs CSV_PATH = Ok d0
    /\ df = length (objs w)
    /\ objs (load_books fs w).2 !! df = Some d
    /\ length (columns d) = length (columns d0)
    /\ rows d = rows d0
    /\ (forall i c, columns d0 !! i = Some c ->
          columns d !! i = Some (str_lower (str_strip c)))
    /\ objs w `prefix_of` objs (load_books fs w).2.
Proof.
  intros Hload. destruct (fs CSV_PATH) as [d0|e] eqn:Hread.
  2:{ rewrite (load_books_unread fs e w Hread) in Hload. discriminate Hload. }
  rewrite (load_books_run fs d0 w Hread) in Hload |- *. simpl in *.
  destruct (decide _) in Hload; [|discriminate Hload].
  inversion Hload; subst df.
  exists d0, {| columns := normalized (columns d0); rows := rows d0 |}.
  split; [reflexivity|]. split; [reflexivity|]. split; [apply lookup_new|].
  split; [apply length_map|]. split; [reflexivity|]. split.
  - intros i c Hc. simpl. unfold normalized. rewrite list_lookup_fmap, Hc.
    reflexivity.
  - apply prefix_app_r. reflexivity.
Qed.

(** X3: [load_books] fails in two ways only.  Either [read_csv] raised,
    and that exception is passed on; or the file was read and the error
    names exactly the required columns that no normalized name of the
    header provides, of which there is at least one. *)
Theorem load_books_errors fs w e :
  (load_books fs w).1 = Raise e ->
  fs CSV_PATH = Raise e
  \/ exists d0 missing,
       fs CSV_PATH = Ok d0
       /\ e = ValueError (CsvMissingColumns missing)
       /\ (forall key, key ∈ missing
                       <-> key ∈ book_fields /\ (key ∉ normalized (columns d0)))
       /\ exists key, key ∈ missing.
Proof.
  intros Hload. destruct (fs CSV_PATH) as [d0|e0] eqn:Hread.
  - rewrite (load_books_run fs d0 w Hread) in Hload. simpl in Hload.
    destruct (decide _) as [|Hne] in Hload; [discriminate Hload|].
    inversion Hload; subst e. right.
    exists d0, (required_cols ∖ list_to_set (normalized (columns d0))).
    split; [reflexivity|]. split; [reflexivity|]. split.
    + intros key. rewrite elem_of_difference, elem_of_list_to_set.
      rewrite required_cols_fields. reflexivity.
    + apply set_choose_L in Hne. exact Hne.
  - rewrite (load_books_unread fs e0 w Hread) in Hload.
    inversion Hload; subst. left. reflexivity.
Qed.

(** ** What the selectors return and raise *)

(** X4: [pick_random] never raises, on any frame: the test [df.empty]
    keeps [sample] and [iloc] away from a frame without rows.  It returns
    [None] exactly when the frame has no rows or no columns, and a row of
    the frame otherwise. *)
Theorem pick_random_outcome d df w :
  objs w !! df = Some d ->
  ((pick_random df w).1 = Ok None <-> rows d = [] \/ columns d = [])
  /\ ((pick_random df w).1 = Ok None
      \/ exists r, r ∈ rows d
           /\ (pick_random df w).1 = Ok (Some (row_series (columns d) r)))
  /\ forall e, (pick_random df w).1 <> Raise e.
Proof.
  intros Hdf. rewrite (pick_random_run df d w Hdf).
  destruct (rows d) as [|r0 rs] eqn:Hrows; simpl.
  - repeat split; auto; discriminate.
  - destruct (bool_decide (columns d = [])) eqn:Hcols; simpl.
    + apply bool_decide_eq_true in Hcols. repeat split; auto; discriminate.
    + apply bool_decide_eq_false in Hcols. split; [|split].
      * split; [discriminate|]. intros [H|H]; [discriminate H | contradiction].
      * right. exists (chosen r0 (r0 :: rs) w).
        split; [apply chosen_elem | reflexivity].
      * discriminate.
Qed.

(** X5: what [pick_by_mood] does is decided by the number of columns
    labelled [mood_tag], whatever the tag and the rows: with none it raises
    [KeyError], with two or more it raises [AttributeError], and with
    exactly one it returns, without raising. *)
Theorem pick_by_mood_by_label_count d df tag w :
  objs w !! df = Some d ->
  (label_count "mood_tag" (columns d) = 0
   <-> (pick_by_mood df tag w).1 = Raise (KeyError "mood_tag"))
  /\ (2 <= label_count "mood_tag" (columns d)
      <-> (pick_by_mood df tag w).1 = Raise (AttributeError "str"))
  /\ (label_count "mood_tag" (columns d) = 1
      <-> exists book, (pick_by_mood df tag w).1 = Ok book).
Proof.
  intros Hdf. rewrite label_count_indexer, (pick_by_mood_run df d tag w Hdf).
  pose proof (mood_subset_cases d tag) as Hcases.
  destruct (get_indexer "mood_tag" (columns d) 0) as [|i [|j l]];
    rewrite Hcases; simpl.
  - split; [tauto|]. split; [split; [lia | discriminate]|].
    split; [discriminate | intros [b Hb]; discriminate Hb].
  - split; [split; [discriminate|]|].
    { destruct (matching d tag); discriminate. }
    split; [split; [lia|]|].
    { destruct (matching d tag); discriminate. }
    split; [intros _ | reflexivity].
    destruct (matching d tag); eexists; reflexivity.
  - split; [split; discriminate|]. split; [split; [reflexivity | lia]|].
    split; [discriminate | intros [b Hb]; discriminate Hb].
Qed.

Lemma chosen_with_draw r0 (l : list (list cell)) i r w :
  l !! i = Some r -> chosen r0 l (with_draw i w) = r.
Proof.
  intros Hi. unfold chosen, with_draw. simpl.
  rewrite Nat.mod_small by (eapply lookup_lt_Some, Hi).
  rewrite Hi. reflexivity.
Qed.

(** X6: every row of a frame with columns can be drawn: for each row there
    is a draw of the generator on which [pick_random] returns it. *)
Theorem pick_random_reaches d df r w :
  objs w !! df = Some d ->
  columns d <> [] -> r ∈ rows d ->
  exists i, (pick_random df (with_draw i w)).1
            = Ok (Some (row_series (columns d) r)).
Proof.
  intros Hdf Hcols [i Hi]%list_elem_of_lookup_1. exists i.
  rewrite (pick_random_run df d (with_draw i w) Hdf).
  destruct (rows d) as [|r0 rs] eqn:Hrows.
  - rewrite lookup_nil in Hi. discriminate Hi.
  - rewrite bool_decide_eq_false_2 by exact Hcols. simpl.
    rewrite (chosen_with_draw r0 _ i r w Hi). reflexivity.
Qed.

(** X7: every row that matches the tag can be drawn: on a frame with one
    [mood_tag] column, for each row whose mood, as lower-case text, is the
    lower-case tag there is a draw of the generator on which
    [pick_by_mood] returns it. *)
Theorem pick_by_mood_reaches d df tag r w :
  objs w !! df = Some d ->
  unique_label "mood_tag" (columns d) ->
  r ∈ rows d -> matches_mood d tag r ->
  exists i, (pick_by_mood df tag (with_draw i w)).1
            = Ok (Some (row_series (columns d) r)).
Proof.
  intros Hdf Hu Hrow Hmatch.
  assert (Hin : r ∈ matching d tag) by (apply matching_elem; auto).
  apply list_elem_of_lookup_1 in Hin as [i Hi]. exists i.
  rewrite (pick_by_mood_run df d tag (with_draw i w) Hdf).
  rewrite (mood_subset_unique d tag Hu).
  destruct (matching d tag) as [|r0 rs] eqn:Hm.
  - rewrite lookup_nil in Hi. discriminate Hi.
  - simpl. rewrite (chosen_with_draw r0 _ i r w Hi). reflexivity.
Qed.

Lemma can_return_row d tag book :
  can_return d tag book ->
  unique_label "mood_tag" (columns d)
  /\ exists r, r ∈ rows d /\ matches_mood d tag r
               /\ book = row_series (columns d) r.
Proof.
  intros (w & df & Hdf & Hw). rewrite (pick_by_mood_run df d tag w Hdf) in Hw.
  destruct (mood_subset d tag) as [sub|] eqn:Hsub; [|discriminate Hw].
  apply mood_subset_Ok in Hsub as [Hu _]. split; [exact Hu|].
  destruct (matching d tag) as [|r0 rs] eqn:Hm; [discriminate Hw|].
  simpl in Hw. inversion Hw; subst book.
  assert (Hin : chosen r0 (r0 :: rs) w ∈ matching d tag)
    by (rewrite Hm; apply chosen_elem).
  apply matching_elem in Hin as [Hrow Hmatch].
  exists (chosen r0 (r0 :: rs) w). auto.
Qed.

Lemma mood_is_same_lower c tag1 tag2 :
  mood_is c tag1 = true -> mood_is c tag2 = true ->
  str_lower tag1 = str_lower tag2.
Proof.
  unfold mood_is. destruct (astype_str c) as [s|]; [|discriminate].
  intros H1%bool_decide_eq_true H2%bool_decide_eq_true. congruence.
Qed.

(** X8: the candidates of two tags overlap only when [str.lower] gives the
    two tags one form: a row matches two tags, or a book can be returned
    for two tags, only if the lower-cased tags are equal. *)
Theorem can_return_same_case d tag1 tag2 :
  (forall r, matches_mood d tag1 r -> matches_mood d tag2 r ->
             str_lower tag1 = str_lower tag2)
  /\ (forall book, can_return d tag1 book -> can_return d tag2 book ->
                   str_lower tag1 = str_lower tag2).
Proof.
  split.
  - intros r H1 H2. exact (mood_is_same_lower _ _ _ H1 H2).
  - intros book (Hu & r1 & _ & Hm1 & Hb1)%can_return_row
                (_ & r2 & _ & Hm2 & Hb2)%can_return_row.
    assert (Hf : field d r1 "mood_tag" = field d r2 "mood_tag").
    { pose proof (series_getitem_unique d r1 "mood_tag" Hu) as G1.
      pose proof (series_getitem_unique d r2 "mood_tag" Hu) as G2.
      rewrite <- Hb1 in G1. rewrite <- Hb2 in G2.
      rewrite G1 in G2. inversion G2. reflexivity. }
    unfold matches_mood in Hm1, Hm2. rewrite Hf in Hm1.
    exact (mood_is_same_lower _ _ _ Hm1 Hm2).
Qed.

(** ** What the views answer and raise *)

Lemma book_response_keys d r resp :
  book_response (row_series (columns d) r) = Ok resp ->
  status resp = 200 /\ dom (body resp) = book_keys.
Proof. intros (_ & Hs & Hk & _)%book_response_Ok. auto. Qed.

(** X9: the responses have three shapes and no other.  [GET /] answers 200
    with [{"status": "ok"}]; a book view answers either one of its error
    bodies, with 404, or for [/mood] with 400, or a body of exactly the six
    book keys with 200: an error never comes with book fields, and a book
    never with an [error] key. *)
Theorem view_response_shape req w resp :
  (view req w).1 = Ok resp ->
  match req with
  | GetRoot => resp = {| body := ok_body; status := 200 |}
  | GetRandom =>
      resp = error_response "no_books" 404
      \/ (status resp = 200 /\ dom (body resp) = book_keys)
  | GetMood _ =>
      resp = error_response "missing_tag_param" 400
      \/ resp = error_response "no_books_for_mood" 404
      \/ (status resp = 200 /\ dom (body resp) = book_keys)
  end.
Proof.
  destruct req as [| |args]; cbn [view]; intros H.
  - rewrite health_run in H. inversion H. reflexivity.
  - destruct (table w) as [d|] eqn:Ht.
    2:{ rewrite (random_book_dangling w Ht) in H. discriminate H. }
    rewrite (random_book_run w d Ht) in H.
    destruct (rows d) as [|r0 rs]; [inversion H; auto|].
    destruct (bool_decide _); [inversion H; auto|].
    simpl in H. right. eapply book_response_keys, H.
  - destruct (mood_book_cases args) as [Hno | (tag & Hget & Hne)].
    + rewrite (mood_book_missing_tag_run args w Hno) in H. inversion H. auto.
    + destruct (table w) as [d|] eqn:Ht.
      2:{ rewrite (mood_book_dangling args tag w Hget Hne Ht) in H.
          discriminate H. }
      rewrite (mood_book_run args tag w d Hget Hne Ht) in H.
      destruct (mood_subset d tag); [|discriminate H].
      destruct (matching d tag) as [|r0 rs]; [inversion H; auto|].
      simpl in H. right. right. eapply book_response_keys, H.
Qed.

(** X10: the status of [/mood] tells the case.  It answers 400 exactly
    when the [tag] parameter is absent or empty, and 404 exactly when the
    tag is given, one column is labelled [mood_tag] and no row's mood, as
    lower-case text, is the lower-case tag. *)
Theorem mood_book_status args w d :
  table w = Some d ->
  ((exists resp, (mood_book args w).1 = Ok resp /\ status resp = 400)
   <-> args_get args "tag" = None \/ args_get args "tag" = Some EmptyString)
  /\ ((exists resp, (mood_book args w).1 = Ok resp /\ status resp = 404)
      <-> exists tag, args_get args "tag" = Some tag /\ tag <> EmptyString
            /\ unique_label "mood_tag" (columns d)
            /\ ~ some_match d tag).
Proof.
  intros Ht. destruct (mood_book_cases args) as [Hno | (tag & Hget & Hne)].
  - rewrite (mood_book_missing_tag_run args w Hno). simpl. split.
    + split; [auto|]. intros _. eexists. split; reflexivity.
    + split.
      * intros (resp & Hr & Hs). inversion Hr; subst. discriminate Hs.
      * intros (tag & Hget & Hne & _).
        destruct Hno as [Hno | Hno]; rewrite Hno in Hget; congruence.
  - rewrite (mood_book_run args tag w d Hget Hne Ht).
    assert (Hnot : ~ (args_get args "tag" = None
                      \/ args_get args "tag" = Some EmptyString))
      by (rewrite Hget; intros [H|H]; congruence).
    destruct (mood_subset d tag) as [sub|e] eqn:Hsub; simpl.
    + apply mood_subset_Ok in Hsub as [Hu _].
      destruct (matching d tag) as [|r0 rs] eqn:Hm; simpl.
      * apply matching_nil in Hm. split.
        -- split; [|tauto]. intros (resp & Hr & Hs).
           inversion Hr; subst. discriminate Hs.
        -- split; [|intros _; eexists; split; reflexivity].
           intros _. exists tag. auto.
      * assert (Hsome : some_match d tag).
        { exists r0. apply matching_elem. rewrite Hm. apply list_elem_of_here. }
        split.
        -- split; [|tauto]. intros (resp & Hr & Hs).
           apply book_response_keys in Hr as [Hr _]. congruence.
        -- split.
           ++ intros (resp & Hr & Hs).
              apply book_response_keys in Hr as [Hr _]. congruence.
           ++ intros (tag' & Hget' & _ & _ & Hno).
              rewrite Hget in Hget'. inversion Hget'; subst. contradiction.
    + split.
      * split; [|tauto]. intros (resp & Hr & _). discriminate Hr.
      * split; [intros (resp & Hr & _); discriminate Hr|].
        intros (tag' & Hget' & _ & Hu & _).
        rewrite Hget in Hget'. inversion Hget'; subst tag'.
        rewrite (mood_subset_unique _ tag Hu) in Hsub. discriminate Hsub.
Qed.

(** X11: [/random] answers 404 exactly when the frame is empty, that is
    without rows or without columns, and the body is then
    [{"error": "no_books"}]. *)
Theorem random_book_status w d :
  table w = Some d ->
  ((exists resp, (random_book w).1 = Ok resp /\ status resp = 404)
   <-> rows d = [] \/ columns d = [])
  /\ (forall resp, (random_book w).1 = Ok resp -> status resp = 404 ->
                   resp = error_response "no_books" 404).
Proof.
  intros Ht. rewrite (random_book_run w d Ht).
  destruct (rows d) as [|r0 rs] eqn:Hrows; simpl.
  - split; [split; [auto | intros _; eexists; split; reflexivity]|].
    intros resp H _. inversion H. reflexivity.
  - destruct (bool_decide (columns d = [])) eqn:Hcols; simpl.
    + apply bool_decide_eq_true in Hcols.
      split; [split; [auto | intros _; eexists; split; reflexivity]|].
      intros resp H _. inversion H. reflexivity.
    + apply bool_decide_eq_false in Hcols. split.
      * split.
        -- intros (resp & Hr & Hs).
           apply book_response_keys in Hr as [Hr _]. congruence.
        -- intros [H|H]; [discriminate H | contradiction].
      * intros resp Hr Hs.
        apply book_response_keys in Hr as [Hr _]. congruence.
Qed.

(** X12: a 200 response of a book view always describes a row of the
    table.  The table then has each of the six labels on exactly one
    column, and the body holds under the six keys what the JSON encoder
    writes for the six fields of one row: the fields themselves when they
    are text or missing values.  For [/mood] the row matches the tag. *)
Theorem book_view_answers_row req w resp :
  req <> GetRoot ->
  (view req w).1 = Ok resp -> status resp = 200 ->
  exists d r,
    table w = Some d
    /\ r ∈ rows d
    /\ unique_fields d
    /\ renders d r (body resp)
    /\ (plain_row d r -> resp = {| body := book_body d r; status := 200 |})
    /\ match req with
       | GetMood args =>
           exists tag, args_get args "tag" = Some tag /\ matches_mood d tag r
       | _ => True
       end.
Proof.
  assert (Hbook : forall d r, book_response (row_series (columns d) r) = Ok resp ->
            unique_fields d /\ renders d r (body resp)
            /\ (plain_row d r ->
                resp = {| body := book_body d r; status := 200 |})).
  { intros d r H. pose proof H as (Hu & _ & Hr)%book_response_Ok.
    split; [exact Hu|]. split; [exact Hr|]. intros Hp.
    rewrite (book_response_plain d r Hu Hp) in H. inversion H. reflexivity. }
  intros Hreq H Hs. destruct req as [| |args]; cbn [view] in H;
    [contradiction| |].
  - destruct (table w) as [d|] eqn:Ht.
    2:{ rewrite (random_book_dangling w Ht) in H. discriminate H. }
    rewrite (random_book_run w d Ht) in H.
    destruct (rows d) as [|r0 rs] eqn:Hrows;
      [inversion H; subst; discriminate Hs|].
    destruct (bool_decide _); [inversion H; subst; discriminate Hs|].
    simpl in H. apply Hbook in H as (Hu & Hr & Hp).
    exists d, (chosen r0 (r0 :: rs) w). split; [reflexivity|].
    split; [rewrite Hrows; apply chosen_elem|]. auto.
  - destruct (mood_book_cases args) as [Hno | (tag & Hget & Hne)].
    + rewrite (mood_book_missing_tag_run args w Hno) in H.
      inversion H; subst. discriminate Hs.
    + destruct (table w) as [d|] eqn:Ht.
      2:{ rewrite (mood_book_dangling args tag w Hget Hne Ht) in H.
          discriminate H. }
      rewrite (mood_book_run args tag w d Hget Hne Ht) in H.
      destruct (mood_subset d tag); [|discriminate H].
      destruct (matching d tag) as [|r0 rs] eqn:Hm;
        [inversion H; subst; discriminate Hs|].
      simpl in H. apply Hbook in H as (Hu & Hr & Hp).
      assert (Hin : chosen r0 (r0 :: rs) w ∈ matching d tag)
        by (rewrite Hm; apply chosen_elem).
      apply matching_elem in Hin as [Hrow Hmatch].
      exists d, (chosen r0 (r0 :: rs) w). split; [reflexivity|].
      split; [exact Hrow|]. split; [exact Hu|]. split; [exact Hr|].
      split; [exact Hp|]. exists tag. auto.
Qed.

(** ** Tables on which no view raises *)

Lemma view_answered req w d :
  table w = Some d -> unique_fields d -> plain_fields d ->
  answered (view req w).1.
Proof.
  intros Ht Hu Hp. unfold answered.
  assert (Hrow : forall r, r ∈ rows d ->
            book_response (row_series (columns d) r)
            = Ok {| body := book_body d r; status := 200 |}).
  { intros r Hr. apply book_response_plain; [exact Hu|].
    unfold plain_fields in Hp. rewrite Forall_forall in Hp. apply Hp, Hr. }
  destruct req as [| |args]; cbn [view].
  - rewrite health_run. eexists; reflexivity.
  - rewrite (random_book_run w d Ht).
    destruct (rows d) as [|r0 rs] eqn:Hrows; [eexists; reflexivity|].
    destruct (bool_decide _); [eexists; reflexivity|].
    simpl. rewrite Hrow by apply chosen_elem.
    eexists; reflexivity.
  - destruct (mood_book_cases args) as [Hno | (tag & Hget & Hne)].
    + rewrite (mood_book_missing_tag_run args w Hno). eexists; reflexivity.
    + rewrite (mood_book_run args tag w d Hget Hne Ht).
      rewrite (mood_subset_unique _ tag (unique_fields_mood d Hu)).
      destruct (matching d tag) as [|r0 rs] eqn:Hm; [eexists; reflexivity|].
      assert (Hin : chosen r0 (r0 :: rs) w ∈ matching d tag)
        by (rewrite Hm; apply chosen_elem).
      apply matching_elem in Hin as [Hin _].
      simpl. rewrite (Hrow _ Hin). eexists; reflexivity.
Qed.

Lemma serve_all_answered reqs w d :
  table w = Some d -> unique_fields d -> plain_fields d ->
  Forall answered (serve_all reqs w).1.
Proof.
  revert w. induction reqs as [|req reqs IH]; intros w Ht Hu Hp; simpl;
    [constructor|].
  pose proof (view_answered req w d Ht Hu Hp) as Hview.
  pose proof (keeps_view req w) as Hkeep.
  destruct (view req w) as [out w']. simpl in *.
  pose proof (preserved_table w w' d Hkeep Ht) as Ht'.
  specialize (IH w' Ht' Hu Hp).
  destruct (serve_all reqs w') as [outs w'']. simpl in *.
  constructor; assumption.
Qed.

Lemma serve_all_length reqs w : length (serve_all reqs w).1 = length reqs.
Proof.
  revert w. induction reqs as [|req reqs IH]; intros w; simpl; [reflexivity|].
  destruct (view req w) as [out w']. specialize (IH w').
  destruct (serve_all reqs w') as [outs w'']. simpl in *. congruence.
Qed.

(** what start-up gives when the file has the six names *)
Lemma startup_run fs rand d0 :
  fs CSV_PATH = Ok d0 ->
  required_cols ⊆ list_to_set (normalized (columns d0)) ->
  startup fs rand
  = Ok {| objs := [{| columns := normalized (columns d0); rows := rows d0 |}];
          BOOKS_DF := 0; entropy := rand; drawn := 0; calls := [] |}.
Proof.
  intros Hread Hsub. unfold startup. rewrite (load_books_run fs d0 _ Hread).
  rewrite decide_True by (apply difference_empty_subseteq, Hsub).
  reflexivity.
Qed.

(** X13: when the file is read into a table in which, once the names are
    normalized, each of the six names labels exactly one column, and the
    six fields of every row are text or missing values, no view raises:
    every request is answered, and so is every request of any sequence
    served from start-up on that file, one response per request. *)
Theorem well_formed_table_answers fs d0 rand reqs :
  fs CSV_PATH = Ok d0 ->
  unique_fields {| columns := normalized (columns d0); rows := rows d0 |} ->
  plain_fields {| columns := normalized (columns d0); rows := rows d0 |} ->
  (forall req w,
      table w = Some {| columns := normalized (columns d0); rows := rows d0 |} ->
      answered (view req w).1)
  /\ exists outs, run fs rand reqs = Ok outs
                  /\ length outs = length reqs
                  /\ Forall answered outs.
Proof.
  intros Hread Hu Hp. split.
  - intros req w Ht. eapply view_answered; eassumption.
  - unfold run.
    rewrite (startup_run fs rand d0 Hread (unique_fields_Table _ Hu)). simpl.
    eexists. split; [reflexivity|]. split; [apply serve_all_length|].
    eapply serve_all_answered; [reflexivity | exact Hu | exact Hp].
Qed.

(** X14: on a table with the six required columns the views raise two
    exceptions and no other: [/random] only [TypeError], from encoding the
    chosen book; [/mood] that one, or [AttributeError] when more than one
    column is labelled [mood_tag]; the health check never raises. *)
Theorem view_exceptions req w d e :
  table w = Some d ->
  Table d -> (view req w).1 = Raise e ->
  match req with
  | GetRoot => False
  | GetRandom => e = TypeError
  | GetMood _ =>
      e = TypeError
      \/ (e = AttributeError "str"
          /\ 2 <= label_count "mood_tag" (columns d))
  end.
Proof.
  intros Htab Ht H.
  assert (Hbook : forall r e', book_response (row_series (columns d) r)
                               = Raise e' -> e' = TypeError).
  { intros r e' [He' | (k & Hk & Hn & _)]%book_response_Raise; [exact He'|].
    exfalso. apply Hn, Table_columns; assumption. }
  destruct req as [| |args]; cbn [view] in H.
  - rewrite health_run in H. discriminate H.
  - rewrite (random_book_run w d Htab) in H.
    destruct (rows d) as [|r0 rs]; [discriminate H|].
    destruct (bool_decide _); [discriminate H|].
    simpl in H. eapply Hbook, H.
  - destruct (mood_book_cases args) as [Hno | (tag & Hget & Hne)].
    + rewrite (mood_book_missing_tag_run args w Hno) in H. discriminate H.
    + rewrite (mood_book_run args tag w d Hget Hne Htab) in H.
      destruct (mood_subset d tag) as [sub|e0] eqn:Hsub.
      * destruct (matching d tag); [discriminate H|].
        simpl in H. left. eapply Hbook, H.
      * simpl in H. inversion H; subst e0.
        apply mood_subset_Raise in Hsub as [[_ Hzero] | Hattr];
          [|right; exact Hattr].
        exfalso. eapply Table_mood_count; eassumption.
Qed.

(** ** Requests compared *)

(** X15: [/mood] does not tell tags apart that [str.lower] gives one form:
    two requests with such tags, both empty or both not, get the same
    outcome, response or exception, and leave the same world, whatever
    else their query strings hold. *)
Theorem mood_book_case_insensitive args1 args2 tag1 tag2 w :
  args_get args1 "tag" = Some tag1 -> args_get args2 "tag" = Some tag2 ->
  (tag1 = EmptyString <-> tag2 = EmptyString) ->
  str_lower tag1 = str_lower tag2 ->
  mood_book args1 w = mood_book args2 w.
Proof.
  intros H1 H2 Hempty Hcase.
  destruct (decide (tag1 = EmptyString)) as [E1|Hne1].
  - pose proof (proj1 Hempty E1) as E2. subst.
    rewrite !mood_book_missing_tag_run by auto. reflexivity.
  - assert (Hne2 : tag2 <> EmptyString) by tauto.
    destruct (table w) as [d|] eqn:Ht.
    + rewrite (mood_book_run args1 tag1 w d H1 Hne1 Ht).
      rewrite (mood_book_run args2 tag2 w d H2 Hne2 Ht).
      rewrite (mood_subset_same_lower _ tag1 tag2 Hcase).
      rewrite (matching_same_lower _ tag1 tag2 Hcase).
      unfold subset_of. rewrite (matching_same_lower _ tag1 tag2 Hcase).
      reflexivity.
    + rewrite (mood_book_dangling args1 tag1 w H1 Hne1 Ht).
      rewrite (mood_book_dangling args2 tag2 w H2 Hne2 Ht). reflexivity.
Qed.

Lemma serve_all_app reqs1 reqs2 w :
  serve_all (reqs1 ++ reqs2)%list w
  = (((serve_all reqs1 w).1 ++ (serve_all reqs2 (serve_all reqs1 w).2).1)%list,
     (serve_all reqs2 (serve_all reqs1 w).2).2).
Proof.
  revert w. induction reqs1 as [|req reqs1 IH]; intros w; simpl.
  - destruct (serve_all reqs2 w); reflexivity.
  - destruct (view req w) as [out w']. rewrite IH.
    destruct (serve_all reqs1 w') as [outs1 w1]. simpl.
    destruct (serve_all reqs2 w1) as [outs2 w2]. reflexivity.
Qed.

(** X16: a health check does not depend on the table and disturbs nothing:
    placed anywhere in a sequence of requests it is answered 200 with
    [{"status": "ok"}], the requests before and after it get the outcomes
    they get without it, and the world at the end is the same. *)
Theorem health_transparent before after w :
  serve_all (before ++ GetRoot :: after)%list w
  = (((serve_all before w).1
        ++ Ok {| body := ok_body; status := 200 |}
        :: (serve_all after (serve_all before w).2).1)%list,
     (serve_all after (serve_all before w).2).2)
  /\ serve_all (before ++ after)%list w
     = (((serve_all before w).1
           ++ (serve_all after (serve_all before w).2).1)%list,
        (serve_all after (serve_all before w).2).2).
Proof.
  split; [|apply serve_all_app].
  rewrite serve_all_app. cbn [serve_all view]. rewrite health_run.
  destruct (serve_all after (serve_all before w).2). reflexivity.
Qed.

Lemma chosen_same_draw r0 rs w1 w2 :
  entropy w1 (drawn w1) = entropy w2 (drawn w2) ->
  chosen r0 rs w1 = chosen r0 rs w2.
Proof. intros H. unfold chosen. rewrite H. reflexivity. Qed.

(** X17: the views keep no state between requests.  The outcome of a
    request is decided by the table and by the next draw of the generator
    alone: two worlds that agree on these give the same outcome, whatever
    was served before. *)
Theorem view_stateless req w1 w2 :
  table w1 = table w2 ->
  entropy w1 (drawn w1) = entropy w2 (drawn w2) ->
  (view req w1).1 = (view req w2).1.
Proof.
  intros Hdf Hdraw. destruct req as [| |args]; cbn [view].
  - rewrite !health_run. reflexivity.
  - destruct (table w1) as [d|] eqn:Ht; symmetry in Hdf.
    + rewrite (random_book_run w1 d Ht), (random_book_run w2 d Hdf).
      destruct (rows d) as [|r0 rs]; [reflexivity|].
      destruct (bool_decide _); [reflexivity|]. simpl.
      rewrite (chosen_same_draw r0 (r0 :: rs) w1 w2 Hdraw). reflexivity.
    + rewrite (random_book_dangling w1 Ht), (random_book_dangling w2 Hdf).
      reflexivity.
  - destruct (mood_book_cases args) as [Hno | (tag & Hget & Hne)].
    + rewrite !mood_book_missing_tag_run by exact Hno. reflexivity.
    + destruct (table w1) as [d|] eqn:Ht; symmetry in Hdf.
      * rewrite (mood_book_run args tag w1 d Hget Hne Ht).
        rewrite (mood_book_run args tag w2 d Hget Hne Hdf).
        destruct (mood_subset d tag); [|reflexivity].
        destruct (matching d tag) as [|r0 rs]; [reflexivity|]. simpl.
        rewrite (chosen_same_draw r0 (r0 :: rs) w1 w2 Hdraw). reflexivity.
      * rewrite (mood_book_dangling args tag w1 Hget Hne Ht).
        rewrite (mood_book_dangling args tag w2 Hget Hne Hdf). reflexivity.
Qed.

Lemma filter_all (l : list (list cell)) (P : list cell -> Prop)
    `{forall r, Decision (P r)} :
  Forall P l -> filter P l = l.
Proof.
  induction 1 as [|r l Hr _ IH]; [reflexivity|].
  rewrite filter_cons, decide_True by exact Hr. rewrite IH. reflexivity.
Qed.

(** X18: when every row of the table has the mood, [/mood] answers as
    [/random] does: with one [mood_tag] column and a non-empty tag that
    every row matches, both views have the same outcome in the same
    world. *)
Theorem mood_book_all_match args tag w d :
  args_get args "tag" = Some tag -> tag <> EmptyString ->
  table w = Some d ->
  unique_label "mood_tag" (columns d) ->
  Forall (matches_mood d tag) (rows d) ->
  rows d <> [] ->
  (mood_book args w).1 = (random_book w).1.
Proof.
  intros Hget Hne Ht Hu Hall Hrows.
  rewrite (mood_book_run args tag w d Hget Hne Ht), (random_book_run w d Ht).
  rewrite (mood_subset_unique _ tag Hu).
  unfold matching. rewrite (filter_all _ _ Hall).
  destruct (rows d) as [|r0 rs]; [contradiction|].
  rewrite bool_decide_eq_false_2; [reflexivity|].
  intros Hnil. apply unique_label_elem in Hu. rewrite Hnil in Hu.
  by apply elem_of_nil in Hu.
Qed.

(** ** The table of a running process *)

Lemma serve_all_no_Dangling reqs w d :
  table w = Some d ->
  Forall (fun out => out <> Raise Dangling) (serve_all reqs w).1.
Proof.
  revert w. induction reqs as [|req reqs IH]; intros w Ht; simpl;
    [constructor|].
  assert (Hview : (view req w).1 <> Raise Dangling).
  { destruct req as [| |args]; cbn [view].
    - rewrite health_run. discriminate.
    - rewrite (random_book_run w d Ht). destruct (rows d); [discriminate|].
      destruct (bool_decide _); [discriminate|]. simpl.
      intros [H | (k & _ & _ & H)]%book_response_Raise; discriminate H.
    - destruct (mood_book_cases args) as [Hno | (tag & Hget & Hne)].
      + rewrite (mood_book_missing_tag_run args w Hno). discriminate.
      + rewrite (mood_book_run args tag w d Hget Hne Ht).
        destruct (mood_subset d tag) as [sub|e] eqn:Hsub.
        * destruct (matching d tag); [discriminate|]. simpl.
          intros [H | (k & _ & _ & H)]%book_response_Raise; discriminate H.
        * simpl. apply mood_subset_Raise in Hsub as [[-> _] | [-> _]];
            discriminate. }
  pose proof (keeps_view req w) as Hkeep.
  destruct (view req w) as [out w']. simpl in *.
  pose proof (preserved_table w w' d Hkeep Ht) as Ht'.
  specialize (IH w' Ht'). destruct (serve_all reqs w') as [outs w''].
  simpl in *. constructor; assumption.
Qed.

(** X19: when the process starts, [BOOKS_DF] names the frame that
    [load_books] made of the file: the rows of the file under the
    normalized names, among which are the six required ones.  It names
    that frame, unchanged, after any sequence of requests, and every
    request finds it: no view ever follows a reference to no object. *)
Theorem startup_table fs rand w :
  startup fs rand = Ok w ->
  exists d0,
    fs CSV_PATH = Ok d0
    /\ Table {| columns := normalized (columns d0); rows := rows d0 |}
    /\ forall reqs,
         table (serve_all reqs w).2
         = Some {| columns := normalized (columns d0); rows := rows d0 |}
         /\ Forall (fun out => out <> Raise Dangling) (serve_all reqs w).1.
Proof.
  intros (d0 & Hread & Hsub & Ht)%startup_Ok. exists d0.
  split; [exact Hread|]. split; [exact Hsub|]. intros reqs. split.
  - eapply preserved_table; [apply serve_all_preserved | exact Ht].
  - eapply serve_all_no_Dangling, Ht.
Qed.

End App.

(** * The code on the sample tables, under Python 3 and pandas 3 *)

#[local] Existing Instance runtime.

(** ** Text *)

Example lower_Happy : Text.lower "Happy" = "happy".
Proof. reflexivity. Qed.

Example lower_keeps_digits : Text.lower "Sci-Fi 2" = "sci-fi 2".
Proof. reflexivity. Qed.

Example lower_accents : Text.lower "ÉPIC" = "épic".
Proof. vm_compute. reflexivity. Qed.

(** the capital sigma at the end of a word *)
Example lower_final_sigma :
  Text.lower "ΟΔΟΣ" = "οδος" /\ Text.lower "οδοσ" = "οδοσ"
  /\ Text.lower "ΣΑΣ" = "σας".
Proof. vm_compute. repeat split. Qed.

Example casefold_sigma :
  Text.casefold "ΟΔΟΣ" = "οδοσ" /\ Text.casefold "οδος" = "οδοσ".
Proof. vm_compute. repeat split. Qed.

Example strip_Title : Text.strip " Title  " = "Title".
Proof. reflexivity. Qed.

Example strip_inner_space : Text.strip "  mood tag " = "mood tag".
Proof. reflexivity. Qed.

(** the no-break space is white space *)
Example strip_nbsp : Text.strip (nbsp +:+ "Title ") = "Title".
Proof. vm_compute. reflexivity. Qed.

(** ** Tables *)


Lemma unique_fields_two_books : unique_fields two_books.
Proof. repeat constructor. Qed.

Lemma unique_fields_greek_table : unique_fields greek_table.
Proof. repeat constructor. Qed.

Lemma Table_two_books : Table two_books.
Proof. apply unique_fields_Table, unique_fields_two_books. Qed.

Lemma Table_no_books : Table no_books.
Proof. apply unique_fields_Table. repeat constructor. Qed.

Lemma Table_twin_table : Table twin_table.
Proof.
  intros x Hx%required_cols_fields. apply (elem_of_list_to_set (C := gset string)).
  unfold book_fields in Hx. simpl.
  rewrite !elem_of_cons, elem_of_nil in Hx. rewrite !elem_of_cons. tauto.
Qed.

Lemma plain_fields_dune_table : plain_fields dune_table.
Proof. repeat constructor. Qed.

Lemma plain_fields_two_books : plain_fields two_books.
Proof. repeat constructor. Qed.

Lemma no_angry_book : ~ some_match two_books "angry".
Proof.
  intros (r & Hin & Hm). simpl in Hin.
  rewrite !elem_of_cons, elem_of_nil in Hin.
  destruct Hin as [-> | [-> | []]]; vm_compute in Hm; discriminate Hm.
Qed.

(** ** Loading *)

Example load_spaced_header :
  startup (disk spaced_file) (fun n => n) = Ok (world_of dune_table).
Proof. vm_compute. reflexivity. Qed.

Example load_without_genre :
  startup (disk no_genre_file) (fun n => n)
  = Raise (ValueError (CsvMissingColumns {[ "genre" ]})).
Proof. vm_compute. reflexivity. Qed.

Example load_unreadable : startup no_disk (fun n => n) = Raise ReadCsvError.
Proof. reflexivity. Qed.

(** Two columns of the file, [mood_tag] and [Mood_Tag], get one label, and
    the file loads. *)
Example load_twin_columns :
  startup (disk twin_file) (fun n => n) = Ok (world_of twin_table).
Proof. vm_compute. reflexivity. Qed.

(** [load_books] writes the names into the frame that [read_csv] made:
    one object, its labels replaced. *)
Example load_books_writes_in_place :
  objs (read_csv (disk spaced_file) CSV_PATH (fresh (fun n => n))).2
  = [spaced_file]
  /\ objs (load_books (disk spaced_file) (fresh (fun n => n))).2
     = [dune_table].
Proof. vm_compute. split; reflexivity. Qed.

(** A write to a frame object is a change that [preserved] excludes. *)
Example set_columns_not_preserved :
  (set_columns 0 ["a"; "b"; "c"; "d"; "e"; "f"] (world_of dune_table)).1 = Ok tt
  /\ table (set_columns 0 ["a"; "b"; "c"; "d"; "e"; "f"] (world_of dune_table)).2
     = Some {| columns := ["a"; "b"; "c"; "d"; "e"; "f"]; rows := [dune] |}
  /\ ~ preserved (world_of dune_table)
         (set_columns 0 ["a"; "b"; "c"; "d"; "e"; "f"] (world_of dune_table)).2.
Proof.
  split; [reflexivity|]. split; [reflexivity|].
  intros [_ Hpre]. apply (prefix_lookup_Some _ _ 0 dune_table) in Hpre;
    [|reflexivity].
  vm_compute in Hpre. discriminate Hpre.
Qed.

(** ** Selecting *)

Example pick_by_mood_not_substring :
  Text.contains "epic" "pic" = true
  /\ (pick_by_mood 0 "pic" (world_of dune_table)).1 = Ok None
  /\ (pick_by_mood 0 "EPIC" (world_of dune_table)).1
     = Ok (Some (row_series book_fields dune)).
Proof. vm_compute. repeat split. Qed.

(** a missing mood stays missing under [astype(str)]: no tag selects it,
    not even [nan] *)
Example pick_by_mood_missing_mood :
  (pick_by_mood 0 "nan" (world_of untagged)).1 = Ok None.
Proof. vm_compute. reflexivity. Qed.

Example pick_random_no_columns :
  (pick_random 0 (world_of {| columns := []; rows := [[]] |})).1 = Ok None.
Proof. reflexivity. Qed.

(** the selectors leave new frame objects behind, and the table alone *)
Example serve_two_requests :
  objs (serve_all [GetRandom; GetMood [("tag", "epic")]] (world_of two_books)).2
  = [two_books; one_row two_books dune; subset_of two_books "epic";
     one_row two_books dune].
Proof. vm_compute. reflexivity. Qed.

(** ** Responses *)

Example health_ok :
  (health (world_of no_books)).1 = Ok {| body := ok_body; status := 200 |}.
Proof. vm_compute. reflexivity. Qed.

(** scenario 1 *)
Example random_book_dune :
  (random_book (world_of dune_table)).1
  = Ok {| body := list_to_map
                    [("title", CStr "Dune"); ("author", CStr "Herbert");
                     ("genre", CStr "SciFi"); ("mood", CStr "Epic");
                     ("energy", CStr "High"); ("notes", CStr "Classic")];
          status := 200 |}.
Proof. vm_compute. reflexivity. Qed.

(** scenario 2 *)
Example random_book_no_books :
  (random_book (world_of no_books)).1 = Ok (error_response "no_books" 404).
Proof. vm_compute. reflexivity. Qed.

(** scenario 3 *)
Example mood_book_no_tag :
  (mood_book [] (world_of two_books)).1
  = Ok (error_response "missing_tag_param" 400).
Proof. vm_compute. reflexivity. Qed.

(** scenario 4 *)
Example mood_book_angry :
  (mood_book [("tag", "angry")] (world_of two_books)).1
  = Ok (error_response "no_books_for_mood" 404).
Proof. vm_compute. reflexivity. Qed.

(** scenario 5 *)
Example run_without_genre :
  run (disk no_genre_file) (fun n => n) [GetRoot; GetRandom]
  = Raise (ValueError (CsvMissingColumns {[ "genre" ]})).
Proof. vm_compute. reflexivity. Qed.

Example mood_book_keeps_stored_case :
  (mood_book [("tag", "épic")] (world_of greek_table)).1
  = Ok {| body := book_body greek_table epic; status := 200 |}
  /\ book_body greek_table epic !! "mood" = Some (CStr "ÉPIC").
Proof. vm_compute. split; reflexivity. Qed.

(** a float is written as it is *)
Example random_book_float_energy :
  (random_book (world_of rated_table)).1
  = Ok {| body := list_to_map
                    [("title", CStr "Dune"); ("author", CStr "Herbert");
                     ("genre", CStr "SciFi"); ("mood", CStr "Epic");
                     ("energy", CFloat "4.5"); ("notes", CStr "Classic")];
          status := 200 |}.
Proof. vm_compute. reflexivity. Qed.

(** in a row of numbers with a float, every number is read back a float *)
Example random_book_numbers :
  (random_book (world_of numbers_table)).1
  = Ok {| body := list_to_map
                    [("title", CFloat "1.0"); ("author", CFloat "2.0");
                     ("genre", CFloat "3.0"); ("mood", CFloat "4.0");
                     ("energy", CFloat "4.5"); ("notes", CFloat "6.0")];
          status := 200 |}.
Proof. vm_compute. reflexivity. Qed.

(** a mood that is a number is matched by its text and answered as the
    float the row holds *)
Example mood_book_numeric_mood :
  (mood_book [("tag", "4")] (world_of numbers_table)).1
  = (random_book (world_of numbers_table)).1
  /\ book_body numbers_table [CInt 1; CInt 2; CInt 3; CInt 4; CFloat "4.5"; CInt 6]
       !! "mood" = Some (CInt 4).
Proof. vm_compute. split; reflexivity. Qed.

(** An integer column beside text: the value read from the book is a
    [numpy.int64], which the encoder refuses, and the request fails where
    the book was found. *)
Example random_book_integer_energy :
  unique_fields graded_table
  /\ (random_book (world_of graded_table)).1 = Raise TypeError
  /\ (mood_book [("tag", "epic")] (world_of graded_table)).1 = Raise TypeError.
Proof. split; [repeat constructor|]. vm_compute. split; reflexivity. Qed.

Example run_twin_columns :
  run (disk twin_file) (fun n => n) [GetRoot; GetRandom; GetMood []]
  = Ok [Ok {| body := ok_body; status := 200 |};
        Raise TypeError;
        Ok (error_response "missing_tag_param" 400)].
Proof. vm_compute. reflexivity. Qed.

(** ** Where the claims fail *)

(** C1 fails on two tables.  The file with the columns [mood_tag] and
    [Mood_Tag] loads into a table with two columns labelled [mood_tag]:
    there [df["mood_tag"]] is a frame, which has no [str] accessor, and
    [pick_by_mood] raises where a row has the mood.  And in a table with
    one such column, the stored mood [οδοσ] is the tag [ΟΔΟΣ] up to letter
    case, yet [str.lower] gives the tag a final sigma, and [pick_by_mood]
    returns [None]. *)
Lemma pick_by_mood_twin_columns :
  (startup (disk twin_file) (fun n => n) = Ok (world_of twin_table)
   /\ (pick_by_mood 0 "epic" (world_of twin_table)).1
      = Raise (AttributeError "str")
   /\ ~ pick_by_mood_stated twin_table 0 "epic" (world_of twin_table))
  /\ (unique_fields greek_table
      /\ odos ∈ rows greek_table
      /\ folds_to greek_table "ΟΔΟΣ" odos
      /\ (pick_by_mood 0 "ΟΔΟΣ" (world_of greek_table)).1 = Ok None
      /\ ~ pick_by_mood_stated greek_table 0 "ΟΔΟΣ" (world_of greek_table)).
Proof.
  split.
  - split; [vm_compute; reflexivity|].
    split; [vm_compute; reflexivity|].
    intros [_ Hsome]. destruct Hsome as (r & _ & _ & Hout).
    + exists (hd [] (rows twin_table)). split; [apply list_elem_of_here|].
      exists "Epic". vm_compute. split; reflexivity.
    + vm_compute in Hout. discriminate Hout.
  - assert (Hfold : folds_to greek_table "ΟΔΟΣ" odos)
      by (exists "οδοσ"; vm_compute; split; reflexivity).
    assert (Hin : odos ∈ rows greek_table) by apply list_elem_of_here.
    assert (Hout : (pick_by_mood 0 "ΟΔΟΣ" (world_of greek_table)).1 = Ok None)
      by (vm_compute; reflexivity).
    split; [exact unique_fields_greek_table|]. split; [exact Hin|].
    split; [exact Hfold|]. split; [exact Hout|].
    intros [Hnone _]. apply (proj1 Hnone Hout). exists odos. auto.
Qed.



(** C7 fails for the tags [ΟΔΟΣ] and [οδοσ], which are equal up to letter
    case: [str.lower] gives the first a final sigma, so that the stored
    mood [οδοσ] is a candidate for the second tag and not for the first. *)
Lemma pick_by_mood_final_sigma :
  Text.casefold "ΟΔΟΣ" = Text.casefold "οδοσ"
  /\ mood_subset greek_table "ΟΔΟΣ"
     = Ok {| columns := book_fields; rows := [] |}
  /\ mood_subset greek_table "οδοσ"
     = Ok {| columns := book_fields; rows := [odos] |}
  /\ ~ case_blind_stated greek_table "ΟΔΟΣ" "οδοσ"
  /\ can_return greek_table "οδοσ" (row_series book_fields odos)
  /\ ~ can_return greek_table "ΟΔΟΣ" (row_series book_fields odos).
Proof.
  assert (Hfold : Text.casefold "ΟΔΟΣ" = Text.casefold "οδοσ")
    by (vm_compute; reflexivity).
  assert (H1 : mood_subset greek_table "ΟΔΟΣ"
               = Ok {| columns := book_fields; rows := [] |})
    by (vm_compute; reflexivity).
  assert (H2 : mood_subset greek_table "οδοσ"
               = Ok {| columns := book_fields; rows := [odos] |})
    by (vm_compute; reflexivity).
  split; [exact Hfold|]. split; [exact H1|]. split; [exact H2|]. split; [|split].
  - intros Hblind. specialize (Hblind Hfold). rewrite H1, H2 in Hblind.
    discriminate Hblind.
  - exists (world_of greek_table), 0. split; [reflexivity|].
    vm_compute. reflexivity.
  - intros (_ & r & Hin & Hm & _)%can_return_row.
    simpl in Hin. rewrite !elem_of_cons, elem_of_nil in Hin.
    destruct Hin as [-> | [-> | []]]; vm_compute in Hm; discriminate Hm.
Qed.

(** ** The theorems at work *)

Lemma pick_by_mood_matches_witness :
  pick_by_mood_spec two_books 0 "HAPPY" (world_of two_books)
  /\ (forall r, matches_mood two_books "HAPPY" r
                <-> exists s, astype_str (field two_books r "mood_tag") = Some s
                              /\ series_str_lower s = str_lower "HAPPY").
Proof.
  apply (pick_by_mood_matches two_books 0 "HAPPY" (world_of two_books));
    reflexivity.
Defined.

Lemma pick_random_member_witness :
  ((pick_random 0 (world_of two_books)).1 = Ok None <-> rows two_books = [])
  /\ (rows two_books <> [] ->
      exists r, r ∈ rows two_books
                /\ (pick_random 0 (world_of two_books)).1
                   = Ok (Some (row_series (columns two_books) r))).
Proof.
  apply (pick_random_member two_books 0 (world_of two_books));
    [reflexivity | exact Table_two_books].
Defined.

Lemma mood_book_missing_tag_witness :
  mood_book [("tag", EmptyString)] (world_of two_books)
  = (Ok (error_response "missing_tag_param" 400), world_of two_books)
  /\ calls (mood_book [("tag", EmptyString)] (world_of two_books)).2
     = calls (world_of two_books).
Proof.
  apply (mood_book_missing_tag [("tag", EmptyString)] (world_of two_books)).
  right. reflexivity.
Defined.



Lemma pick_by_mood_case_insensitive_witness :
  mood_subset greek_table "épic" = mood_subset greek_table "ÉPIC"
  /\ (forall df w, pick_by_mood df "épic" w = pick_by_mood df "ÉPIC" w)
  /\ (forall book, can_return greek_table "épic" book
                   <-> can_return greek_table "ÉPIC" book).
Proof.
  apply (pick_by_mood_case_insensitive greek_table "épic" "ÉPIC").
  vm_compute. reflexivity.
Defined.

Lemma mood_book_mood_is_stored_witness :
  exists d tag r,
    table (world_of greek_table) = Some d
    /\ args_get [("tag", "épic")] "tag" = Some tag
    /\ r ∈ rows d
    /\ matches_mood d tag r
    /\ (exists v, json_cell (row_series (columns d) r) (field d r "mood_tag")
                  = Ok v
                  /\ book_body greek_table epic !! "mood" = Some v)
    /\ (forall s, field d r "mood_tag" = CStr s ->
          book_body greek_table epic !! "mood" = Some (CStr s)
          /\ (s <> tag ->
              book_body greek_table epic !! "mood" <> Some (CStr tag))).
Proof.
  apply (mood_book_mood_is_stored [("tag", "épic")] (world_of greek_table)
           {| body := book_body greek_table epic; status := 200 |}).
  - vm_compute. reflexivity.
  - reflexivity.
Defined.

Lemma no_missing_key_witness :
  getitem no_books "mood_tag" <> Raise (KeyError "mood_tag")
  /\ (forall r f, f ∈ book_fields ->
        series_getitem (row_series (columns no_books) r) f
        <> Raise (KeyError "mood_tag"))
  /\ (forall df tag w, objs w !! df = Some no_books ->
        (pick_by_mood df tag w).1 <> Raise (KeyError "mood_tag"))
  /\ (forall req w, table w = Some no_books ->
        (view req w).1 <> Raise (KeyError "mood_tag"))
  /\ (forall fs rand reqs outs,
        run fs rand reqs = Ok outs ->
        Forall (fun out => out <> Raise (KeyError "mood_tag")) outs).
Proof. apply (no_missing_key no_books "mood_tag"), Table_no_books. Defined.

Lemma load_books_labels_witness :
  exists d0 d,
    disk spaced_file CSV_PATH = Ok d0
    /\ 0 = length (objs (fresh (fun n => n)))
    /\ objs (load_books (disk spaced_file) (fresh (fun n => n))).2 !! 0 = Some d
    /\ length (columns d) = length (columns d0)
    /\ rows d = rows d0
    /\ (forall i c, columns d0 !! i = Some c ->
          columns d !! i = Some (str_lower (str_strip c)))
    /\ objs (fresh (fun n => n))
       `prefix_of` objs (load_books (disk spaced_file) (fresh (fun n => n))).2.
Proof.
  apply (load_books_labels (disk spaced_file) (fresh (fun n => n)) 0).
  vm_compute. reflexivity.
Defined.

Lemma load_books_errors_witness :
  disk no_genre_file CSV_PATH
  = Raise (ValueError (CsvMissingColumns {[ "genre" ]}))
  \/ exists d0 missing,
       disk no_genre_file CSV_PATH = Ok d0
       /\ ValueError (CsvMissingColumns {[ "genre" ]})
          = ValueError (CsvMissingColumns missing)
       /\ (forall key, key ∈ missing
                       <-> key ∈ book_fields /\ (key ∉ normalized (columns d0)))
       /\ exists key, key ∈ missing.
Proof.
  apply (load_books_errors (disk no_genre_file) (fresh (fun n => n))).
  vm_compute. reflexivity.
Defined.

Lemma pick_random_outcome_witness :
  ((pick_random 0 (world_of no_books)).1 = Ok None
   <-> rows no_books = [] \/ columns no_books = [])
  /\ ((pick_random 0 (world_of no_books)).1 = Ok None
      \/ exists r, r ∈ rows no_books
           /\ (pick_random 0 (world_of no_books)).1
              = Ok (Some (row_series (columns no_books) r)))
  /\ forall e, (pick_random 0 (world_of no_books)).1 <> Raise e.
Proof.
  apply (pick_random_outcome no_books 0 (world_of no_books)). reflexivity.
Defined.

Lemma pick_by_mood_by_label_count_witness :
  (label_count "mood_tag" (columns twin_table) = 0
   <-> (pick_by_mood 0 "epic" (world_of twin_table)).1
       = Raise (KeyError "mood_tag"))
  /\ (2 <= label_count "mood_tag" (columns twin_table)
      <-> (pick_by_mood 0 "epic" (world_of twin_table)).1
          = Raise (AttributeError "str"))
  /\ (label_count "mood_tag" (columns twin_table) = 1
      <-> exists book, (pick_by_mood 0 "epic" (world_of twin_table)).1 = Ok book).
Proof.
  apply (pick_by_mood_by_label_count twin_table 0 "epic" (world_of twin_table)).
  reflexivity.
Defined.

Lemma pick_random_reaches_witness :
  exists i, (pick_random 0 (with_draw i (world_of two_books))).1
            = Ok (Some (row_series (columns two_books) emma)).
Proof.
  apply (pick_random_reaches two_books 0 emma (world_of two_books)).
  - reflexivity.
  - discriminate.
  - simpl. elem_here.
Defined.

Lemma pick_by_mood_reaches_witness :
  exists i, (pick_by_mood 0 "HAPPY" (with_draw i (world_of two_books))).1
            = Ok (Some (row_series (columns two_books) emma)).
Proof.
  apply (pick_by_mood_reaches two_books 0 "HAPPY" emma (world_of two_books)).
  - reflexivity.
  - reflexivity.
  - simpl. elem_here.
  - reflexivity.
Defined.

Lemma can_return_same_case_witness : str_lower "Happy" = str_lower "HAPPY".
Proof.
  apply (proj2 (can_return_same_case two_books "Happy" "HAPPY")
           (row_series (columns two_books) emma)).
  - exists (with_draw 0 (world_of two_books)), 0. split; [reflexivity|].
    vm_compute. reflexivity.
  - exists (with_draw 0 (world_of two_books)), 0. split; [reflexivity|].
    vm_compute. reflexivity.
Defined.

Lemma view_response_shape_witness :
  error_response "no_books_for_mood" 404 = error_response "missing_tag_param" 400
  \/ error_response "no_books_for_mood" 404
     = error_response "no_books_for_mood" 404
  \/ (status (error_response "no_books_for_mood" 404) = 200
      /\ dom (body (error_response "no_books_for_mood" 404)) = book_keys).
Proof.
  apply (view_response_shape (GetMood [("tag", "angry")]) (world_of two_books)).
  vm_compute. reflexivity.
Defined.

Lemma mood_book_status_witness :
  exists resp, (mood_book [("tag", "angry")] (world_of two_books)).1 = Ok resp
               /\ status resp = 404.
Proof.
  apply (proj2 (proj2 (mood_book_status [("tag", "angry")] (world_of two_books)
                         two_books eq_refl))).
  exists "angry". split; [reflexivity|]. split; [discriminate|].
  split; [reflexivity | exact no_angry_book].
Defined.

Lemma random_book_status_witness :
  error_response "no_books" 404 = error_response "no_books" 404.
Proof.
  apply (proj2 (random_book_status (world_of no_books) no_books eq_refl)
           (error_response "no_books" 404)).
  - vm_compute. reflexivity.
  - reflexivity.
Defined.

Lemma book_view_answers_row_witness :
  exists d r,
    table (world_of two_books) = Some d
    /\ r ∈ rows d
    /\ unique_fields d
    /\ renders d r (book_body two_books emma)
    /\ (plain_row d r ->
        {| body := book_body two_books emma; status := 200 |}
        = {| body := book_body d r; status := 200 |})
    /\ exists tag, args_get [("tag", "HAPPY")] "tag" = Some tag
                   /\ matches_mood d tag r.
Proof.
  apply (book_view_answers_row (GetMood [("tag", "HAPPY")])
           (world_of two_books)
           {| body := book_body two_books emma; status := 200 |}).
  - discriminate.
  - vm_compute. reflexivity.
  - reflexivity.
Defined.

Lemma well_formed_table_answers_witness :
  (forall req w,
      table w = Some {| columns := normalized (columns spaced_file);
                        rows := rows spaced_file |} ->
      answered (view req w).1)
  /\ exists outs,
       run (disk spaced_file) (fun n => n) [GetRandom; GetMood []; GetRoot]
       = Ok outs
       /\ length outs = length [GetRandom; GetMood []; GetRoot]
       /\ Forall answered outs.
Proof.
  apply (well_formed_table_answers (disk spaced_file) spaced_file (fun n => n)
           [GetRandom; GetMood []; GetRoot]).
  - reflexivity.
  - vm_compute. repeat constructor.
  - vm_compute. repeat constructor.
Defined.

Lemma view_exceptions_witness :
  AttributeError "str" = TypeError
  \/ (AttributeError "str" = AttributeError "str"
      /\ 2 <= label_count "mood_tag" (columns twin_table)).
Proof.
  apply (view_exceptions (GetMood [("tag", "epic")]) (world_of twin_table)
           twin_table).
  - reflexivity.
  - exact Table_twin_table.
  - vm_compute. reflexivity.
Defined.

Lemma mood_book_case_insensitive_witness :
  mood_book [("tag", "Happy")] (world_of two_books)
  = mood_book [("lang", "en"); ("tag", "HAPPY")] (world_of two_books).
Proof.
  apply (mood_book_case_insensitive
           [("tag", "Happy")] [("lang", "en"); ("tag", "HAPPY")]
           "Happy" "HAPPY" (world_of two_books)).
  - reflexivity.
  - reflexivity.
  - split; discriminate.
  - reflexivity.
Defined.

Lemma view_stateless_witness :
  (view GetRandom (world_of two_books)).1
  = (view GetRandom
       (serve_all [GetMood [("tag", "epic")]; GetRoot; GetMood []]
          {| objs := [two_books]; BOOKS_DF := 0; entropy := fun _ => 0;
             drawn := 0; calls := [] |}).2).1.
Proof.
  apply (view_stateless GetRandom); reflexivity.
Defined.

Lemma mood_book_all_match_witness :
  (mood_book [("tag", "EPIC")] (world_of dune_table)).1
  = (random_book (world_of dune_table)).1.
Proof.
  apply (mood_book_all_match [("tag", "EPIC")] "EPIC" (world_of dune_table)
           dune_table).
  - reflexivity.
  - discriminate.
  - reflexivity.
  - reflexivity.
  - repeat constructor.
  - discriminate.
Defined.

Lemma startup_table_witness :
  exists d0,
    disk spaced_file CSV_PATH = Ok d0
    /\ Table {| columns := normalized (columns d0); rows := rows d0 |}
    /\ forall reqs,
         table (serve_all reqs (world_of dune_table)).2
         = Some {| columns := normalized (columns d0); rows := rows d0 |}
         /\ Forall (fun out => out <> Raise Dangling)
                   (serve_all reqs (world_of dune_table)).1.
Proof.
  apply (startup_table (disk spaced_file) (fun n => n) (world_of dune_table)).
  vm_compute. reflexivity.
Defined.
